(** * Tag contact analysis: a shallow embedding of
      [20240618_tno_code_assessment_daniloremmers.py]

    The script reads two proximity logs (tag A, tag B) and a position log,
    repairs the tag labels of the position log, cross-checks the distances the
    two tags report and prints the number and the total duration of the
    contacts within 1.5 m.

    Modelling choices, all visible in the definitions below:
    - Python [int] is [Z]; Python [str] is a list of Unicode code points;
      Python [float] and every float64 column is a primitive binary64 [float].
    - A pandas [DataFrame] is the list of its rows, each with its index label.
      A frame without rows is what [pd.read_csv] makes of a file with a
      header only: its columns then have dtype object, not float64, and
      [np.isclose] raises [TypeError] on them.
    - [print], [pd.read_csv] and the plot are events of a trace; an uncaught
      exception ends the computation and keeps the trace produced so far. *)

From Stdlib Require Import ZArith List Bool Lia String Ascii.
From Stdlib Require Import PrimFloat Uint63.
From stdpp Require Import base option list gmap.

Set Warnings "-inexact-float".
Close Scope string_scope.
Open Scope Z_scope.

(* ===================================================================== *)
(** ** Python values and builtins *)
(* ===================================================================== *)

Module Py.

(** A Python [str]: its code points. *)
Abbreviation pystr := (list Z).

(** String literals of the source, written as Rocq strings. *)
Fixpoint str (s : string) : pystr :=
  match s with
  | EmptyString => []
  | String a s' => Z.of_N (N_of_ascii a) :: str s'
  end.
Arguments str _%_string.

Inductive Exn : Type :=
  | ValueError
  | TypeError
  | KeyError
  | OverflowError
  | ZeroDivisionError
  | OSError.

(** Pure code that may raise. *)
Definition Res (A : Type) : Type := Exn + A.

Definition res_bind {A B} (r : Res A) (k : A -> Res B) : Res B :=
  match r with
  | inl e => inl e
  | inr a => k a
  end.

(** [chr(i)]: the one-character string of code point [i]; [ValueError]
    outside [range(0x110000)], [OverflowError] outside a C [int]. *)
Definition chr (i : Z) : Res pystr :=
  if (0 <=? i) && (i <? 0x110000) then inr [i]
  else if (- 2 ^ 31 <=? i) && (i <? 2 ^ 31) then inl ValueError
  else inl OverflowError.

(** [ord(s)]: defined on strings of length one, [TypeError] otherwise. *)
Definition ord (s : pystr) : Res Z :=
  match s with
  | [c] => inr c
  | _ => inl TypeError
  end.

(** [a // b] on ints: floor division. *)
Definition floordiv (a b : Z) : Res Z :=
  if b =? 0 then inl ZeroDivisionError else inr (a / b).

(** [range(n)]. *)
Definition range (n : Z) : list Z := Z.of_nat <$> seq 0 (Z.to_nat n).

(** [s < t] on strings: lexicographic on code points. *)
Fixpoint str_ltb (s t : pystr) : bool :=
  match s, t with
  | _, [] => false
  | [], _ :: _ => true
  | a :: s', b :: t' => (a <? b) || ((a =? b) && str_ltb s' t')
  end.

(** [max(iterable)] on strings: the first of the largest items;
    [ValueError] on an empty iterable. *)
Definition max_str (l : list pystr) : Res pystr :=
  match l with
  | [] => inl ValueError
  | s :: l' => inr (fold_left (fun m t => if str_ltb m t then t else m) l' s)
  end.

(** [float(n)] for a length [n] (lengths stay far below [2^63]). *)
Definition float_of_int (n : Z) : float := PrimFloat.of_uint63 (Uint63.of_Z n).

End Py.
Import Py.

(* ===================================================================== *)
(** ** Tables *)
(* ===================================================================== *)

Module Pandas.

(** A frame: rows in order, each with its index label. *)
Abbreviation DataFrame R := (list (Z * R)).

Definition len {R} (df : DataFrame R) : Z := Z.of_nat (length df).

Definition rows {R} (df : DataFrame R) : list R := snd <$> df.

Definition index {R} (df : DataFrame R) : list Z := fst <$> df.

(** The default [RangeIndex]: what [read_csv] and [merge] put on a result. *)
Definition range_index {R} (l : list R) : DataFrame R :=
  imap (fun i r => (Z.of_nat i, r)) l.

(** [df[mask]] for a boolean mask computed row by row: the selected rows
    keep their labels. *)
Definition select {R} (p : R -> bool) (df : DataFrame R) : DataFrame R :=
  List.filter (fun ir => p (snd ir)) df.

(** [Series.unique()]: the distinct values in order of first appearance. *)
Fixpoint unique_from (seen : list pystr) (l : list pystr) : list pystr :=
  match l with
  | [] => []
  | s :: l' =>
      if decide (s ∈ seen) then unique_from seen l'
      else s :: unique_from (s :: seen) l'
  end.

Definition unique (l : list pystr) : list pystr := unique_from [] l.

(** Equality of float64 join keys in [pd.merge]: numeric equality, and two
    missing keys (NaN) match each other. *)
Definition key_eqb (s t : float) : bool :=
  PrimFloat.eqb s t || (PrimFloat.is_nan s && PrimFloat.is_nan t).

(** The rows of an inner join: in the order of the left rows, each left row
    with its matches in the order of the right rows. A joined row is the pair
    of its two halves. *)
Definition inner_join {A B} (ka : A -> float) (kb : B -> float)
    (left : list A) (right : list B) : list (A * B) :=
  flat_map (fun a => (fun b => (a, b)) <$>
              List.filter (fun b => key_eqb (ka a) (kb b)) right) left.

(** [pd.merge(left, right, on=key)]: the inner join, indexed afresh. *)
Definition merge {A B} (ka : A -> float) (kb : B -> float)
    (left : DataFrame A) (right : DataFrame B) : DataFrame (A * B) :=
  range_index (inner_join ka kb (rows left) (rows right)).

(** A table as [pd.read_csv] returns it has float64 columns of numbers when
    the file has rows; when the file has a header and no rows, every column
    has dtype object. *)
Definition header_only {R} (df : DataFrame R) : bool :=
  match df with
  | [] => true
  | _ :: _ => false
  end.

(** [np.isclose(x, y)] with the default [rtol = 1e-05], [atol = 1e-08] and
    [equal_nan = False], on two float64 values. *)
Definition isclose (x y : float) : bool :=
  if PrimFloat.is_finite x && PrimFloat.is_finite y
  then PrimFloat.leb (PrimFloat.abs (x - y)%float) (1e-08 + 1e-05 * PrimFloat.abs y)%float
  else PrimFloat.eqb x y.

End Pandas.
Import Pandas.

(* ===================================================================== *)
(** ** Rows, events and the effect monad *)
(* ===================================================================== *)

(** A row of [TagA.csv] / [TagB.csv]: columns [Time [s]], [ContactID],
    [Distance [m]]. *)
Record TagReading : Type := mkReading {
  Time_s : float;
  ContactID : pystr;
  Distance_m : float
}.

(** A row of [position.csv]: columns [Time [s]], [TagID], [x [m]], [y[m]]. *)
Record PositionRecord : Type := mkPosition {
  pos_Time_s : float;
  TagID : pystr;
  x_m : float;
  y_m : float
}.

Definition set_TagID (v : pystr) (r : PositionRecord) : PositionRecord :=
  {| pos_Time_s := pos_Time_s r; TagID := v; x_m := x_m r; y_m := y_m r |}.

(** What a CSV file parses to: one of the two schemas. Asking a table for a
    column it does not have is a [KeyError]. *)
Inductive Table : Type :=
  | TagTable (df : DataFrame TagReading)
  | PositionTable (df : DataFrame PositionRecord).

Definition tag_columns (t : Table) : Res (DataFrame TagReading) :=
  match t with
  | TagTable df => inr df
  | PositionTable _ => inl KeyError
  end.

Definition position_columns (t : Table) : Res (DataFrame PositionRecord) :=
  match t with
  | PositionTable df => inr df
  | TagTable _ => inl KeyError
  end.

(** Everything the program does to the outside world. *)
Inductive Event : Type :=
  | ReadCsv (path : pystr)
  | PrintContactIDs (unique_tags_a unique_tags_b : list pystr)
  | PrintMeasurementError
  | PrintMismatched (table : list (float * float * float))
  | PrintAllMatch
  | PrintSessions (uninterrupted_periods : Z)
  | PrintDuration (total_contact_duration : float)
  | ShowPlot (track_a track_b contact_points : list (float * float)).

(** A run: the trace so far and either the exception that ended it or the
    value returned. *)
Definition Run (A : Type) : Type := (list Event * Res A)%type.

Definition trace {A} (m : Run A) : list Event := fst m.
Definition outcome {A} (m : Run A) : Res A := snd m.

Definition run_ret {A} (a : A) : Run A := ([], inr a).

Definition run_bind {A B} (m : Run A) (k : A -> Run B) : Run B :=
  match m with
  | (t, inl e) => (t, inl e)
  | (t, inr a) => let '(t', r) := k a in (t ++ t', r)
  end.

Definition emit (e : Event) : Run unit := ([e], inr tt).

Definition lift {A} (r : Res A) : Run A := ([], r).

Declare Scope run_scope.
Delimit Scope run_scope with run.
Notation "'let*' x ':=' m 'in' k" := (run_bind m (fun x => k))
  (at level 10, x name, m at level 100, k at level 200, only parsing) : run_scope.
Notation "m ;; k" := (run_bind m (fun _ => k))
  (at level 100, k at level 200, right associativity, only parsing) : run_scope.

Declare Scope res_scope.
Delimit Scope res_scope with res.
Notation "'let*' x ':=' m 'in' k" := (res_bind m (fun x => k))
  (at level 10, x name, m at level 100, k at level 200, only parsing) : res_scope.

(** [for x in l: s = body(s, x)], stopping at the first exception. *)
Fixpoint for_each {S A} (body : S -> A -> Res S) (l : list A) (s : S) : Res S :=
  match l with
  | [] => inr s
  | a :: l' => res_bind (body s a) (for_each body l')
  end.

(* ===================================================================== *)
(** ** The program *)
(* ===================================================================== *)

Section Program.

(** [str.lower]: Python's Unicode lowercasing, from the interpreter. *)
Variable lower : pystr -> pystr.

(** The files on disk: what [pd.read_csv] makes of a path. *)
Variable fs : pystr -> Res Table.

(** The NumPy in use: [np.isclose] asks [np.isfinite] of its second
    argument, and before NumPy 2.0 of its first argument as well. *)
Variable isfinite_of_both : bool.

Definition read_csv (path : pystr) : Run Table := ([ReadCsv path], fs path).

(** Lines 15-25 up to the dictionary update: the key [tag_var] and the value
    [tagfilename] built for [person]. *)
Definition tag_names (person : Z) : Res (pystr * pystr) :=
  (if person <=? 25 then
     let* letter1 := chr (person + 65) in
     let tagfilename := str "Tag" ++ letter1 ++ str ".csv" in
     let tag_var := str "tag_" ++ lower letter1 in
     inr (tag_var, tagfilename)
   else
     let iteration := person / 26 in
     let* c1 := chr (iteration + 64) in
     let* c2 := chr (person mod 26 + 65) in
     let letters12 := c1 ++ c2 in
     let tagfilename := str "Tag" ++ letters12 ++ str ".csv" in
     let tag_var := str "tag_" ++ lower letters12 in
     inr (tag_var, tagfilename))%res.

(** The body of the loop of line 14: [data_frames[tag_var] = tagfilename]. *)
Definition name_tag (data_frames : gmap pystr pystr) (person : Z)
    : Res (gmap pystr pystr) :=
  (let* kv := tag_names person in
   inr (<[fst kv := snd kv]> data_frames))%res.

(** [d[key]]. *)
Definition getitem (d : gmap pystr pystr) (key : pystr) : Res pystr :=
  match d !! key with
  | Some v => inr v
  | None => inl KeyError
  end.

Definition read_csv_files (position : pystr) (numtags : Z)
    : Run (Table * Table * Table) :=
  (let* data_frames := lift (for_each name_tag (range numtags) ∅) in
   let* path_a := lift (getitem data_frames (str "tag_a")) in
   let* tag_a_df := read_csv path_a in
   let* path_b := lift (getitem data_frames (str "tag_b")) in
   let* tag_b_df := read_csv path_b in
   let* position_df := read_csv position in
   run_ret (tag_a_df, tag_b_df, position_df))%run.

Definition check_tag_connections (tag_a_df tag_b_df : DataFrame TagReading)
    : Run unit :=
  let unique_tags_a := unique (ContactID <$> rows tag_a_df) in
  let unique_tags_b := unique (ContactID <$> rows tag_b_df) in
  emit (PrintContactIDs unique_tags_a unique_tags_b).

(** The mask [(Distance [m]_A <= 1.5) & (Distance [m]_B <= 1.5)] of line 53. *)
Definition within_1_5m (merged_tags : DataFrame (TagReading * TagReading))
    : list bool :=
  (fun ab => PrimFloat.leb (Distance_m (fst ab)) 1.5
             && PrimFloat.leb (Distance_m (snd ab)) 1.5) <$> rows merged_tags.

(** One turn of the loop of lines 56-63 on the state
    [(uninterrupted_periods, in_contact)]. *)
Definition period_step (within : list bool) (st : Z * bool) (i : nat)
    : Z * bool :=
  let '(uninterrupted_periods, in_contact) := st in
  if default false (within !! i) then
    if negb in_contact then (uninterrupted_periods + 1, true)
    else (uninterrupted_periods, in_contact)
  else (uninterrupted_periods, false).

(** Lines 54-63: [for i in range(len(within_1_5m))]. *)
Definition count_uninterrupted (within : list bool) : Z :=
  fst (fold_left (period_step within) (seq 0 (length within)) (0, false)).

(** The rows of line 45: those whose two distances are not close. *)
Definition mismatched_distances (merged_tags : DataFrame (TagReading * TagReading))
    : DataFrame (TagReading * TagReading) :=
  select (fun ab => negb (isclose (Distance_m (fst ab)) (Distance_m (snd ab))))
         merged_tags.

(** Line 44, before any value is compared: [np.isfinite] raises [TypeError]
    on a column of dtype object, which a distance column of the joined table
    is when the tag table it comes from was read from a file without rows. *)
Definition isclose_dtypes (tag_a_df tag_b_df : DataFrame TagReading) : Res unit :=
  if header_only tag_b_df || (isfinite_of_both && header_only tag_a_df)
  then inl TypeError
  else inr tt.

Definition verify_distances (tag_a_df tag_b_df : DataFrame TagReading)
    : Run unit :=
  (let merged_tags := merge Time_s Time_s tag_a_df tag_b_df in
   lift (isclose_dtypes tag_a_df tag_b_df) ;;
   let mismatched := mismatched_distances merged_tags in
   (if negb (len mismatched =? 0) then
      emit (PrintMismatched
              ((fun ab => (Time_s (fst ab), Distance_m (fst ab), Distance_m (snd ab)))
                 <$> rows mismatched))
    else emit PrintAllMatch) ;;
   emit (PrintSessions (count_uninterrupted (within_1_5m merged_tags))))%run.

(** Line 75: [position_df.loc[position_df.index % 2 == 1, 'TagID'] = v]. *)
Definition relabel_odd (v : pystr) (position_df : DataFrame PositionRecord)
    : DataFrame PositionRecord :=
  (fun ir => if fst ir mod 2 =? 1 then (fst ir, set_TagID v (snd ir)) else ir)
    <$> position_df.

(** The frame is changed in place and returned: the caller's [position_df]
    and the result are the same object, so the result stands for both. *)
Definition correct_tag_ids (position_df : DataFrame PositionRecord)
    : Run (DataFrame PositionRecord) :=
  (let unique_tags := unique (TagID <$> rows position_df) in
   let* quotient :=
     lift (floordiv (len position_df) (Z.of_nat (length unique_tags))) in
   if negb (Z.of_nat (length unique_tags) =? quotient) then
     emit PrintMeasurementError ;;
     let tag_ids := unique (TagID <$> rows position_df) in
     let* largest := lift (max_str tag_ids) in
     let* code := lift (ord largest) in
     let* next_available_letter := lift (chr (code + 1)) in
     run_ret (relabel_odd next_available_letter position_df)
   else run_ret position_df)%run.

Definition xy (r : PositionRecord) : float * float := (x_m r, y_m r).

Definition plot_positions {C} (position_df : DataFrame PositionRecord)
    (contact_within_1_5m : DataFrame (C * PositionRecord)) : Run unit :=
  let position_a :=
    select (fun r => bool_decide (TagID r = str "A")) position_df in
  let position_b :=
    select (fun r => bool_decide (TagID r = str "B")) position_df in
  emit (ShowPlot (xy <$> rows position_a) (xy <$> rows position_b)
                 ((fun cp => xy (snd cp)) <$> rows contact_within_1_5m)).

(** Lines 121-122. *)
Definition contact_within (tag_df : DataFrame TagReading) : DataFrame TagReading :=
  select (fun r => PrimFloat.leb (Distance_m r) 1.5) tag_df.

(** Lines 126-127. *)
Definition contact_positions (tag : pystr) (contact : DataFrame TagReading)
    (position_df : DataFrame PositionRecord)
    : DataFrame (TagReading * PositionRecord) :=
  merge Time_s pos_Time_s contact
        (select (fun r => bool_decide (TagID r = tag)) position_df).

(** Line 129. *)
Definition total_contact_duration (contact_a contact_b : DataFrame TagReading)
    : float :=
  (float_of_int (Z.min (len contact_a) (len contact_b)) * 0.1)%float.

(** Lines 111-134, on the three tables read. *)
Definition analyse (tag_a_df tag_b_df position_df : Table) : Run unit :=
  (let* tag_a_df := lift (tag_columns tag_a_df) in
   let* tag_b_df := lift (tag_columns tag_b_df) in
   check_tag_connections tag_a_df tag_b_df ;;
   let* position_df := lift (position_columns position_df) in
   let* position_df_corrected := correct_tag_ids position_df in
   let position_df := position_df_corrected in
   verify_distances tag_a_df tag_b_df ;;
   let contact_within_1_5m_a := contact_within tag_a_df in
   let contact_within_1_5m_b := contact_within tag_b_df in
   let contact_within_1_5m_a_pos :=
     contact_positions (str "A") contact_within_1_5m_a position_df in
   let contact_within_1_5m_b_pos :=
     contact_positions (str "B") contact_within_1_5m_b position_df in
   let duration :=
     total_contact_duration contact_within_1_5m_a contact_within_1_5m_b in
   emit (PrintDuration duration) ;;
   plot_positions position_df_corrected contact_within_1_5m_a_pos)%run.

(** [tag_a] and [tag_b] are accepted and never used: the tag files are those
    named by [read_csv_files]. *)
Definition tag_analysis (tag_a tag_b position : pystr) (numtags : Z) : Run unit :=
  (let* frames := read_csv_files position numtags in
   let '(tag_a_df, tag_b_df, position_df) := frames in
   analyse tag_a_df tag_b_df position_df)%run.

End Program.

(* ===================================================================== *)
(** ** What the specification talks about *)
(* ===================================================================== *)








(** The session counts a trace reports. *)
Definition sessions_reported (t : list Event) : list Z :=
  omap (fun e => match e with PrintSessions n => Some n | _ => None end) t.


(** The mismatch tables a trace reports; "all distances match" is the empty
    table. *)
Definition mismatches_reported (t : list Event) : list (list (float * float * float)) :=
  omap (fun e => match e with
                 | PrintMismatched table => Some table
                 | PrintAllMatch => Some []
                 | _ => None
                 end) t.

(** The duplicate-labelling error was flagged. *)
Definition flagged {A} (m : Run A) : Prop := PrintMeasurementError ∈ trace m.

(** The number of rows of a reading set with distance at most 1.5. *)
Fixpoint rows_within (l : list TagReading) : Z :=
  match l with
  | [] => 0
  | r :: l' => (if PrimFloat.leb (Distance_m r) 1.5 then 1 else 0) + rows_within l'
  end.

(** Spreadsheet column names: A, ..., Z, AA, ..., AZ, BA, ..., ZZ, AAA, ...
    (bijective base 26), for the zero-based column [n]. *)
Fixpoint column_letters (fuel : nat) (n : Z) (acc : pystr) : pystr :=
  match fuel with
  | O => acc
  | S fuel' =>
      let acc' := (65 + n mod 26) :: acc in
      if n <? 26 then acc' else column_letters fuel' (n / 26 - 1) acc'
  end.

Definition column_name (n : Z) : pystr := column_letters (Z.to_nat n + 1) n [].


(** Two timestamps are the same join key, whichever side asks. *)
Definition same_time (s t : float) : bool := key_eqb s t || key_eqb t s.

(** No two rows of a reading set have the same timestamp. *)
Fixpoint distinct_times (l : list TagReading) : bool :=
  match l with
  | [] => true
  | r :: l' =>
      forallb (fun r' => negb (same_time (Time_s r) (Time_s r'))) l'
      && distinct_times l'
  end.

(** A joined row whose two distances [np.isclose] tells apart. *)
Definition differing (ab : TagReading * TagReading) : bool :=
  negb (isclose (Distance_m (fst ab)) (Distance_m (snd ab))).

(** The columns of a joined row that the mismatch table shows. *)
Definition report (ab : TagReading * TagReading) : float * float * float :=
  (Time_s (fst ab), Distance_m (fst ab), Distance_m (snd ab)).

Definition set_Distance_m (d : float) (r : TagReading) : TagReading :=
  {| Time_s := Time_s r; ContactID := ContactID r; Distance_m := d |}.

(** Two position rows with the same identifier at the same timestamp. *)
Definition collide (r r' : PositionRecord) : bool :=
  bool_decide (TagID r = TagID r') && key_eqb (pos_Time_s r) (pos_Time_s r').

(** At most one row per (timestamp, identifier) pair. *)
Fixpoint collision_free (l : list PositionRecord) : bool :=
  match l with
  | [] => true
  | r :: l' => forallb (fun r' => negb (collide r r')) l' && collision_free l'
  end.

(** The number of distinct tag identifiers of a position dataset. *)
Definition distinct_tags (df : DataFrame PositionRecord) : Z :=
  Z.of_nat (size (list_to_set (TagID <$> rows df) : gset pystr)).

(** [m] is the largest identifier of the dataset. *)
Definition maximum_id (df : DataFrame PositionRecord) (m : pystr) : Prop :=
  m ∈ TagID <$> rows df /\ forall s, s ∈ TagID <$> rows df -> str_ltb m s = false.

(** Lines 73-74: the identifier the relabelling writes. *)
Definition next_letter (df : DataFrame PositionRecord) : Res pystr :=
  (let* largest := max_str (unique (TagID <$> rows df)) in
   let* code := ord largest in
   chr (code + 1))%res.

(** The letters of lines 16 and 22 for [person]. *)
Definition letters (person : Z) : Res pystr :=
  (if person <=? 25 then chr (person + 65)
   else
     let* c1 := chr (person / 26 + 64) in
     let* c2 := chr (person mod 26 + 65) in
     inr (c1 ++ c2))%res.

(** The largest tag count whose every name the two-letter scheme can build:
    [chr] accepts [person // 26 + 64] up to [0x10FFFF]. *)
Definition max_numtags : Z := 26 * (0x110000 - 64).

(** Reading the tag A file, the tag B file and the position file, in that
    order, and nothing else. *)
Definition read_three (fs : pystr -> Res Table) (position : pystr)
    : Run (Table * Table * Table) :=
  (let* tag_a_df := read_csv fs (str "TagA.csv") in
   let* tag_b_df := read_csv fs (str "TagB.csv") in
   let* position_df := read_csv fs position in
   run_ret (tag_a_df, tag_b_df, position_df))%run.

(** What line 134 hands to the plot. *)
Definition plot_of (position_df : DataFrame PositionRecord)
    (contact_a_pos : DataFrame (TagReading * PositionRecord)) : Event :=
  ShowPlot
    (xy <$> rows (select (fun r => bool_decide (TagID r = str "A")) position_df))
    (xy <$> rows (select (fun r => bool_decide (TagID r = str "B")) position_df))
    ((fun cp => xy (snd cp)) <$> rows contact_a_pos).

(** The loop body of lines 58-63 on the flag itself rather than on its
    position. *)
Definition flag_step (st : Z * bool) (b : bool) : Z * bool :=
  if b then (if negb (snd st) then (fst st + 1, true) else st) else (fst st, false).

(** The runs of [w] when the row before it has flag [prev]. *)
Fixpoint runs_from (prev : bool) (w : list bool) : Z :=
  match w with
  | [] => 0
  | b :: w' => (if b && negb prev then 1 else 0) + runs_from b w'
  end.

(** The number of rows within the threshold. *)
Fixpoint true_rows (w : list bool) : Z :=
  match w with
  | [] => 0
  | b :: w' => (if b then 1 else 0) + true_rows w'
  end.

(** The rows of a dataset that logs each timestamp as a pair of rows. *)
Definition paired_rows (pairs : list (PositionRecord * PositionRecord))
    : list PositionRecord :=
  flat_map (fun p => [fst p; snd p]) pairs.

(** The same rows with the second row of each pair relabelled. *)
Definition repaired_rows (v : pystr) (pairs : list (PositionRecord * PositionRecord))
    : list PositionRecord :=
  flat_map (fun p => [fst p; set_TagID v (snd p)]) pairs.

(* ===================================================================== *)
(** ** Sample data *)
(* ===================================================================== *)

Module Samples.

(** The ASCII part of [str.lower]. *)
Definition ascii_lower (s : pystr) : pystr :=
  (fun c => if (65 <=? c) && (c <=? 90) then c + 32 else c) <$> s.

Definition reading (t : float) (contact : string) (d : float) : TagReading :=
  {| Time_s := t; ContactID := str contact; Distance_m := d |}.

Definition position (t : float) (tag : string) (x y : float) : PositionRecord :=
  {| pos_Time_s := t; TagID := str tag; x_m := x; y_m := y |}.

(** Three timestamps, tags A and B once at each. *)
Definition clean_positions : DataFrame PositionRecord :=
  range_index [position 0 "A" 1 1; position 0 "B" 2 2;
               position 0.1 "A" 1 2; position 0.1 "B" 2 3;
               position 0.2 "A" 1 3; position 0.2 "B" 2 4].

(** Two timestamps, tag A twice at each and no tag B. *)
Definition doubled_positions : DataFrame PositionRecord :=
  range_index [position 0 "A" 1 1; position 0 "A" 2 2;
               position 0.1 "A" 1 2; position 0.1 "A" 2 3].

(** Two rows labelled with the two-letter identifier AA. *)
Definition two_letter_positions : DataFrame PositionRecord :=
  range_index [position 0 "AA" 1 1; position 0 "AA" 2 2].

(** Two timestamps, tags A and B once at each. *)
Definition positions_four : DataFrame PositionRecord :=
  range_index [position 0 "A" 1 1; position 0 "B" 2 2;
               position 0.1 "A" 1 2; position 0.1 "B" 2 3].


(** Nine readings of tag A and of tag B whose within-threshold flags are
    T, T, F, T, T, T, F, F, T. *)
Definition tag_a_nine : DataFrame TagReading :=
  range_index [reading 0 "B" 1; reading 0.1 "B" 1.5; reading 0.2 "B" 2;
               reading 0.3 "B" 1.2; reading 0.4 "B" 0.5; reading 0.5 "B" 1;
               reading 0.6 "B" 3; reading 0.7 "B" 1; reading 0.8 "B" 0.9].

Definition tag_b_nine : DataFrame TagReading :=
  range_index [reading 0 "A" 1; reading 0.1 "A" 1.5; reading 0.2 "A" 2;
               reading 0.3 "A" 1.2; reading 0.4 "A" 0.5; reading 0.5 "A" 1;
               reading 0.6 "A" 3; reading 0.7 "A" 1.6; reading 0.8 "A" 0.9].

(** Two contacts logged at the same timestamp. *)
Definition tag_two_contacts : DataFrame TagReading :=
  range_index [reading 0 "B" 1; reading 0 "C" 2].

(** Tag A logs at 0 and 0.1, tag B at 0.2 and 0.3. *)
Definition tag_a_early : DataFrame TagReading :=
  range_index [reading 0 "B" 1; reading 0.1 "B" 1].

Definition tag_b_late : DataFrame TagReading :=
  range_index [reading 0.2 "A" 1; reading 0.3 "A" 1].



(** A directory holding [TagA.csv], [TagB.csv] and [position.csv]. *)
Definition directory (a b : DataFrame TagReading) (p : DataFrame PositionRecord)
    (path : pystr) : Res Table :=
  if bool_decide (path = str "TagA.csv") then inr (TagTable a)
  else if bool_decide (path = str "TagB.csv") then inr (TagTable b)
  else if bool_decide (path = str "position.csv") then inr (PositionTable p)
  else inl OSError.

End Samples.
Import Samples.

(** Closing a membership hypothesis in an explicit list, case by case. *)
Ltac each_member H :=
  vm_compute in H;
  repeat (apply elem_of_cons in H as [->|H]; [reflexivity|]);
  by apply elem_of_nil in H.

(* ===================================================================== *)
(** ** The effect monad *)
(* ===================================================================== *)

Section Monad.

Lemma run_bind_lift {X Y} (x : X) (k : X -> Run Y) :
  run_bind (lift (inr x)) k = k x.
Proof. unfold lift, run_bind. by destruct (k x). Qed.

Lemma for_each_app {S A} (body : S -> A -> Res S) l1 l2 s :
  for_each body (l1 ++ l2) s = res_bind (for_each body l1 s) (for_each body l2).
Proof.
  revert s. induction l1 as [|a l1 IH]; intros s; [done|].
  cbn. destruct (body s a); [done|]. apply IH.
Qed.

End Monad.

(* ===================================================================== *)
(** ** Counting contact sessions *)
(* ===================================================================== *)

Section Runs.

Lemma period_step_flag pre b suf st :
  period_step (pre ++ b :: suf) st (length pre) = flag_step st b.
Proof.
  unfold period_step, flag_step. rewrite list_lookup_middle by done.
  destruct st as [c a]. simpl. by destruct b, a.
Qed.

Lemma fold_positions_flags suf : forall pre st,
  fold_left (period_step (pre ++ suf)) (seq (length pre) (length suf)) st
  = fold_left flag_step suf st.
Proof.
  induction suf as [|b suf IH]; intros pre st; [done|].
  cbn [length seq fold_left]. rewrite period_step_flag.
  specialize (IH (pre ++ [b]) (flag_step st b)).
  rewrite <- app_assoc, length_app in IH. cbn in IH.
  by replace (length pre + 1)%nat with (S (length pre)) in IH by lia.
Qed.

Lemma fold_flags_runs w : forall c prev,
  fst (fold_left flag_step w (c, prev)) = c + runs_from prev w.
Proof.
  induction w as [|b w IH]; intros c prev; cbn [fold_left runs_from].
  - simpl. lia.
  - unfold flag_step at 2. cbn [fst snd].
    destruct b, prev; cbn [negb andb]; rewrite IH; lia.
Qed.

Lemma count_uninterrupted_runs_from w :
  count_uninterrupted w = runs_from false w.
Proof.
  unfold count_uninterrupted.
  pose proof (fold_positions_flags w [] (0, false)) as H.
  cbn [app length] in H. rewrite H, fold_flags_runs. lia.
Qed.

















End Runs.

(* ===================================================================== *)
(** ** The label corrector *)
(* ===================================================================== *)

Section StringOrder.

Lemma str_ltb_irrefl s : str_ltb s s = false.
Proof.
  induction s as [|a s IH]; [done|]. cbn. rewrite IH, Z.ltb_irrefl.
  by rewrite andb_false_r.
Qed.

Lemma str_ltb_trans s : forall t u,
  str_ltb s t = true -> str_ltb t u = true -> str_ltb s u = true.
Proof.
  induction s as [|a s IH]; intros [|b t] [|c u]; cbn; try done.
  rewrite !orb_true_iff, !andb_true_iff, !Z.ltb_lt, !Z.eqb_eq.
  intros [Hab|[-> Hst]] [Hbc|[-> Htu]]; try (left; lia).
  right. split; [done|]. by apply (IH t u).
Qed.

Lemma str_ltb_total s : forall t,
  str_ltb s t = false -> str_ltb t s = false -> s = t.
Proof.
  induction s as [|a s IH]; intros [|b t]; cbn; try done.
  rewrite !orb_false_iff, !andb_false_iff, !Z.ltb_ge, !Z.eqb_neq.
  intros [Hab [Hne|Hst]] [Hba [Hne'|Hts]]; try lia.
  assert (a = b) as -> by lia. f_equal. by apply IH.
Qed.

(** The fold of [max_str] keeps an item no other item exceeds. *)
Lemma fold_max_spec l : forall m,
  let r := fold_left (fun m t => if str_ltb m t then t else m) l m in
  r ∈ m :: l /\ forall s, s ∈ m :: l -> str_ltb r s = false.
Proof.
  induction l as [|t l IH]; intros m; cbn [fold_left].
  - split; [left|]. intros s ->%list_elem_of_singleton. apply str_ltb_irrefl.
  - destruct (str_ltb m t) eqn:E.
    + destruct (IH t) as [Hin Hmax]. split; [by right|].
      intros s [->|Hs]%elem_of_cons; [|by apply Hmax].
      destruct (str_ltb _ m) eqn:E'; [|done].
      pose proof (str_ltb_trans _ _ _ E' E) as Hc.
      rewrite (Hmax t) in Hc; [done|left].
    + destruct (IH m) as [Hin Hmax]. revert Hin Hmax.
      set (r := fold_left _ l m). intros Hin Hmax. split.
      * apply elem_of_cons in Hin as [Hin|Hin]; [rewrite Hin; left|by do 2 right].
      * intros s Hs. apply elem_of_cons in Hs as [Hs|Hs]; [subst s; apply Hmax; left|].
        apply elem_of_cons in Hs as [Hs|Hs]; [subst s|by apply Hmax; right].
        destruct (str_ltb r t) eqn:E'; [|done].
        destruct (str_ltb m r) eqn:E''.
        -- by rewrite (str_ltb_trans _ _ _ E'' E') in E.
        -- rewrite (str_ltb_total _ _ E'' (Hmax m ltac:(left))) in E.
           congruence.
Qed.

Lemma max_str_spec l m :
  max_str l = inr m -> m ∈ l /\ forall s, s ∈ l -> str_ltb m s = false.
Proof.
  destruct l as [|s l]; [done|]. cbn. intros [= <-]. apply fold_max_spec.
Qed.

End StringOrder.

Section Unique.

Lemma unique_from_spec l : forall seen,
  NoDup (unique_from seen l)
  /\ forall s, s ∈ unique_from seen l <-> s ∈ l /\ s ∉ seen.
Proof.
  induction l as [|a l IH]; intros seen; cbn.
  - split; [constructor|]. intros s. rewrite elem_of_nil. tauto.
  - destruct (decide (a ∈ seen)) as [Ha|Ha].
    + destruct (IH seen) as [Hnd Hin]. split; [done|].
      intros s. rewrite Hin, elem_of_cons. split; [tauto|].
      intros [[->|Hs] Hns]; tauto.
    + destruct (IH (a :: seen)) as [Hnd Hin]. split.
      * constructor; [|done]. rewrite Hin, elem_of_cons. tauto.
      * intros s. rewrite !elem_of_cons, Hin, elem_of_cons.
        destruct (decide (s = a)) as [->|Hne]; tauto.
Qed.

Lemma unique_NoDup l : NoDup (unique l).
Proof. apply unique_from_spec. Qed.

Lemma elem_of_unique l s : s ∈ unique l <-> s ∈ l.
Proof.
  unfold unique. rewrite (proj2 (unique_from_spec l [])), elem_of_nil. tauto.
Qed.

(** [unique] has as many items as there are distinct values. *)
Lemma length_unique l :
  length (unique l) = size (list_to_set l : gset pystr).
Proof.
  rewrite <- (size_list_to_set (C := gset pystr) (unique l)) by apply unique_NoDup.
  f_equal. apply set_eq. intros s.
  by rewrite !elem_of_list_to_set, elem_of_unique.
Qed.

End Unique.

Section Corrector.

Lemma unique_cons s l : unique (s :: l) = s :: unique_from [s] l.
Proof.
  unfold unique. cbn. destruct (decide (s ∈ [])) as [H|_]; [|done].
  by apply elem_of_nil in H.
Qed.

Lemma distinct_tags_unique df :
  Z.of_nat (length (unique (TagID <$> rows df))) = distinct_tags df.
Proof. unfold distinct_tags. by rewrite length_unique. Qed.

Lemma distinct_tags_pos df : df <> [] -> 0 < distinct_tags df.
Proof.
  destruct df as [|[i r] df]; [done|]. intros _.
  rewrite <- distinct_tags_unique. unfold rows. cbn [fmap list_fmap snd].
  rewrite unique_cons. cbn [length]. lia.
Qed.

(** The two branches of [correct_tag_ids] on a frame with rows. *)
Lemma correct_tag_ids_nonempty df :
  df <> [] ->
  correct_tag_ids df =
    if negb (distinct_tags df =? len df / distinct_tags df)
    then ([PrintMeasurementError],
          res_bind (next_letter df) (fun v => inr (relabel_odd v df)))
    else ([], inr df).
Proof.
  intros Hne. pose proof (distinct_tags_pos df Hne) as Hpos.
  unfold correct_tag_ids, floordiv, next_letter.
  rewrite distinct_tags_unique.
  destruct (distinct_tags df =? 0) eqn:E; [lia|].
  cbn [lift run_bind].
  destruct (negb _); [|done].
  cbn [emit run_bind lift app].
  destruct (max_str _) as [e|m]; [done|]. cbn [res_bind].
  destruct (ord m) as [e|c]; [done|]. cbn [res_bind].
  destruct (chr (c + 1)); done.
Qed.

Lemma flagged_nonempty df :
  df <> [] ->
  flagged (correct_tag_ids df) <-> distinct_tags df <> len df / distinct_tags df.
Proof.
  intros Hne. unfold flagged. rewrite (correct_tag_ids_nonempty df Hne).
  destruct (distinct_tags df =? _) eqn:E; cbn [negb trace fst].
  - apply Z.eqb_eq in E. rewrite elem_of_nil. tauto.
  - apply Z.eqb_neq in E. rewrite list_elem_of_singleton. tauto.
Qed.

Lemma max_str_maximum_id df m :
  maximum_id df m -> max_str (unique (TagID <$> rows df)) = inr m.
Proof.
  intros [Hin Hmax].
  destruct (max_str (unique (TagID <$> rows df))) as [e|m'] eqn:E.
  - apply (proj2 (elem_of_unique _ _)) in Hin. unfold max_str in E.
    destruct (unique _) as [|s l]; [by apply elem_of_nil in Hin|done].
  - apply max_str_spec in E as [Hin' Hmax']. f_equal.
    apply str_ltb_total.
    + apply Hmax'. by apply elem_of_unique.
    + apply Hmax. by apply (proj1 (elem_of_unique _ _)) in Hin'.
Qed.

Lemma next_letter_single df c :
  maximum_id df [c] -> 0 <= c < 0x10FFFF -> next_letter df = inr [c + 1].
Proof.
  intros Hmax Hc. unfold next_letter. rewrite (max_str_maximum_id _ _ Hmax).
  cbn [res_bind ord]. unfold chr.
  destruct (0 <=? c + 1) eqn:E1; [|lia].
  destruct (c + 1 <? 1114112) eqn:E2; [done|lia].
Qed.

Lemma next_letter_not_single df m :
  maximum_id df m -> length m <> 1%nat -> next_letter df = inl TypeError.
Proof.
  intros Hmax Hlen. unfold next_letter. rewrite (max_str_maximum_id _ _ Hmax).
  cbn [res_bind]. by destruct m as [|c [|c' m]].
Qed.

Lemma relabel_odd_lookup v df k i r :
  df !! k = Some (i, r) ->
  relabel_odd v df !! k = Some (i, if Z.odd i then set_TagID v r else r).
Proof.
  intros H. unfold relabel_odd. rewrite list_lookup_fmap, H. cbn.
  rewrite Zmod_odd. by destruct (Z.odd i).
Qed.

Lemma relabel_odd_index v df : index (relabel_odd v df) = index df.
Proof.
  unfold index, relabel_odd. rewrite <- list_fmap_compose.
  apply list_fmap_ext. intros k [i r] _. cbn. by destruct (i mod 2 =? 1).
Qed.

Lemma odd_of_nat k : Z.odd (Z.of_nat k) = Nat.odd k.
Proof.
  enough (Z.odd (Z.of_nat k) = Nat.odd k /\ Z.even (Z.of_nat k) = Nat.even k)
    by tauto.
  induction k as [|k [IHo IHe]]; [done|].
  rewrite Nat2Z.inj_succ, Z.odd_succ, Z.even_succ, Nat.odd_succ, Nat.even_succ.
  done.
Qed.

Lemma rows_range_index {R} (l : list R) : rows (range_index l) = l.
Proof.
  unfold rows, range_index. rewrite fmap_imap.
  apply list_eq. intros k. rewrite list_lookup_imap. by destruct (l !! k).
Qed.

Lemma unique_from_same s l :
  (forall t, t ∈ l -> t = s) -> unique_from [s] l = [].
Proof.
  induction l as [|a l IH]; intros Hall; [done|]. cbn.
  rewrite (Hall a) by left.
  destruct (decide (s ∈ [s])) as [_|H]; [|by destruct H; left].
  apply IH. intros t Ht. apply Hall. by right.
Qed.

Lemma flagged_has_rows df : flagged (correct_tag_ids df) -> df <> [].
Proof. intros H ->. by apply elem_of_nil in H. Qed.

End Corrector.

Section CorrectorClaims.

Lemma distinct_tags_clean : distinct_tags clean_positions = 2.
Proof. rewrite <- distinct_tags_unique. reflexivity. Qed.

(** C1 (the code departs from the claim): the six-row dataset with tags A
    and B once at each of three timestamps has two distinct identifiers and
    no (timestamp, identifier) collision, yet [correct_tag_ids] flags it,
    because [2 <> 6 // 2], and relabels the rows at index 1, 3 and 5 to C. *)
Theorem correct_tag_ids_changes_clean_dataset :
  distinct_tags clean_positions = 2
  /\ collision_free (rows clean_positions) = true
  /\ correct_tag_ids clean_positions
     = ([PrintMeasurementError],
        inr (range_index [position 0 "A" 1 1; position 0 "C" 2 2;
                          position 0.1 "A" 1 2; position 0.1 "C" 2 3;
                          position 0.2 "A" 1 3; position 0.2 "C" 2 4]))
  /\ outcome (correct_tag_ids clean_positions) <> inr clean_positions.
Proof.
  split; [apply distinct_tags_clean|]. split; [reflexivity|].
  split; [vm_compute; reflexivity|].
  vm_compute. intros [=].
Qed.

(** C10: on the empty position dataset there are zero rows and zero distinct
    identifiers, the quotient of line 70 divides by zero, and
    [correct_tag_ids] ends in [ZeroDivisionError] without a result and
    without printing. *)
Theorem correct_tag_ids_empty_divides_by_zero :
  len ([] : DataFrame PositionRecord) = 0
  /\ distinct_tags [] = 0
  /\ floordiv (len ([] : DataFrame PositionRecord)) (distinct_tags []) = inl ZeroDivisionError
  /\ correct_tag_ids [] = ([], inl ZeroDivisionError).
Proof. repeat split. Qed.

(** C2, as amended: on a dataset with at least one row, the error is flagged
    exactly when the number of distinct identifiers differs from the row
    count floor-divided by that number; a run that is not flagged prints
    nothing and returns the dataset as it was; a flagged run relabels rows
    when the largest identifier is a single character [c] other than the
    last code point: it then returns the dataset with [chr(c + 1)] as the
    [TagID] of every row at an odd index and every other row and field as it
    was; a flagged run on a dataset whose largest identifier is not a single
    character ends in [TypeError] and returns nothing. *)
Theorem correct_tag_ids_flags_iff (df : DataFrame PositionRecord) :
  df <> [] ->
  (flagged (correct_tag_ids df)
     <-> distinct_tags df <> len df / distinct_tags df)
  /\ (~ flagged (correct_tag_ids df) -> correct_tag_ids df = ([], inr df))
  /\ (flagged (correct_tag_ids df) ->
      forall c, maximum_id df [c] -> 0 <= c < 0x10FFFF ->
        exists df',
          correct_tag_ids df = ([PrintMeasurementError], inr df')
          /\ length df' = length df
          /\ forall k i r, df !! k = Some (i, r) ->
               df' !! k
               = Some (i, {| pos_Time_s := pos_Time_s r;
                             TagID := if Z.odd i then [c + 1] else TagID r;
                             x_m := x_m r;
                             y_m := y_m r |}))
  /\ (flagged (correct_tag_ids df) ->
      forall m, maximum_id df m -> length m <> 1%nat ->
        correct_tag_ids df = ([PrintMeasurementError], inl TypeError)).
Proof.
  intros Hne. split; [by apply flagged_nonempty|].
  rewrite (flagged_nonempty df Hne), (correct_tag_ids_nonempty df Hne).
  destruct (distinct_tags df =? _) eqn:E; cbn [negb].
  - apply Z.eqb_eq in E. split; [done|]. split; intros H; by destruct H.
  - apply Z.eqb_neq in E. split; [intros H; by destruct H|]. split.
    + intros _ c Hmax Hc. rewrite (next_letter_single df c Hmax Hc).
      cbn [res_bind]. eexists. split; [done|].
      split; [unfold relabel_odd; by rewrite length_fmap|].
      intros k i r Hk. rewrite (relabel_odd_lookup _ _ _ _ _ Hk).
      destruct r as [t tag x y]. by destruct (Z.odd i).
    + intros _ m Hmax Hlen. by rewrite (next_letter_not_single df m Hmax Hlen).
Qed.

Lemma correct_tag_ids_flags_iff_witness :
  (flagged (correct_tag_ids doubled_positions)
     <-> distinct_tags doubled_positions
         <> len doubled_positions / distinct_tags doubled_positions)
  /\ correct_tag_ids doubled_positions
     = ([PrintMeasurementError],
        inr (range_index [position 0 "A" 1 1; position 0 "B" 2 2;
                          position 0.1 "A" 1 2; position 0.1 "B" 2 3])).
Proof.
  destruct (correct_tag_ids_flags_iff doubled_positions ltac:(discriminate))
    as (Hiff & _ & Hrelabel & _).
  split; [exact Hiff|].
  destruct (Hrelabel ltac:(vm_compute; left) 65) as (df' & -> & Hlen & Hrows).
  - split; [vm_compute; left|]. intros s Hs. each_member Hs.
  - lia.
  - do 2 f_equal. apply list_eq. intros k.
    destruct k as [|[|[|[|k]]]];
      try (erewrite Hrows by reflexivity; reflexivity).
    rewrite !lookup_ge_None_2; [done|cbn; lia|rewrite Hlen; cbn; lia].
Defined.

(** C2 as stated fails: two rows labelled AA meet the condition
    ([1 <> 2 // 1]) and are flagged, yet no row is relabelled: the run ends
    in [TypeError]; and on the dataset without rows the quotient is not
    defined: the run ends in [ZeroDivisionError] before the comparison. *)
Lemma correct_tag_ids_flags_without_relabelling :
  two_letter_positions <> []
  /\ distinct_tags two_letter_positions
     <> len two_letter_positions / distinct_tags two_letter_positions
  /\ flagged (correct_tag_ids two_letter_positions)
  /\ correct_tag_ids two_letter_positions
     = ([PrintMeasurementError], inl TypeError)
  /\ (~ exists df', outcome (correct_tag_ids two_letter_positions) = inr df')
  /\ len ([] : DataFrame PositionRecord) = 0
  /\ distinct_tags [] = 0
  /\ correct_tag_ids [] = ([], inl ZeroDivisionError).
Proof.
  split; [discriminate|]. split; [vm_compute; discriminate|].
  split; [vm_compute; left|]. split; [reflexivity|].
  split; [by intros [df' [=]]|]. repeat split.
Qed.

(** C5, as amended: whenever the error is flagged and the largest existing
    identifier is a single character [c] other than the last code point,
    [correct_tag_ids] returns the dataset with the same index in which every
    row at an odd index has [TagID] [chr(c + 1)] and every row at an even
    index is as it was; in particular a dataset of [2 T] rows, [T >= 1], all
    labelled A (two A rows and no B row per timestamp) is flagged and comes
    back with B at the odd positions, without an exception. *)
Theorem correct_tag_ids_relabels_odd_rows :
  (forall (df : DataFrame PositionRecord) (c : Z),
     flagged (correct_tag_ids df) ->
     maximum_id df [c] ->
     0 <= c < 0x10FFFF ->
     exists df',
       outcome (correct_tag_ids df) = inr df'
       /\ index df' = index df
       /\ forall k i r, df !! k = Some (i, r) ->
            df' !! k = Some (i, if Z.odd i then set_TagID [c + 1] r else r))
  /\ (forall (l : list PositionRecord) (T : nat),
       (forall r, r ∈ l -> TagID r = str "A") ->
       (1 <= T)%nat ->
       length l = (2 * T)%nat ->
       flagged (correct_tag_ids (range_index l))
       /\ exists df',
            outcome (correct_tag_ids (range_index l)) = inr df'
            /\ forall k r, l !! k = Some r ->
                 df' !! k = Some (Z.of_nat k,
                                  if Nat.odd k then set_TagID (str "B") r else r)).
Proof.
  assert (forall (df : DataFrame PositionRecord) (c : Z),
     flagged (correct_tag_ids df) ->
     maximum_id df [c] ->
     0 <= c < 0x10FFFF ->
     exists df',
       outcome (correct_tag_ids df) = inr df'
       /\ index df' = index df
       /\ forall k i r, df !! k = Some (i, r) ->
            df' !! k = Some (i, if Z.odd i then set_TagID [c + 1] r else r))
    as General.
  { intros df c Hflag Hmax Hc.
    pose proof (flagged_has_rows df Hflag) as Hne.
    apply (flagged_nonempty df Hne) in Hflag. apply Z.eqb_neq in Hflag.
    rewrite (correct_tag_ids_nonempty df Hne), Hflag.
    rewrite (next_letter_single df c Hmax Hc). cbn [negb res_bind outcome snd].
    eexists. split; [done|]. split; [apply relabel_odd_index|].
    intros k i r. apply relabel_odd_lookup. }
  split; [exact General|].
  intros l T HallA HT Hlen.
  assert (l <> []) as Hl by (intros ->; cbn in Hlen; lia).
  assert (range_index l <> []) as Hne.
  { intros E. apply (f_equal length) in E. unfold range_index in E.
    rewrite length_imap in E. cbn in E. lia. }
  assert (distinct_tags (range_index l) = 1) as Hd.
  { rewrite <- distinct_tags_unique, rows_range_index.
    destruct l as [|r l]; [done|]. cbn [fmap list_fmap]. rewrite unique_cons.
    rewrite unique_from_same; [done|].
    intros t (r' & -> & Hr')%list_elem_of_fmap.
    rewrite (HallA r) by left. apply HallA. by right. }
  assert (flagged (correct_tag_ids (range_index l))) as Hflag.
  { apply (flagged_nonempty _ Hne). rewrite Hd, Z.div_1_r.
    unfold len, range_index. rewrite length_imap. lia. }
  split; [done|].
  destruct (General (range_index l) 65 Hflag) as (df' & Hout & _ & Hrows).
  - split.
    + rewrite rows_range_index. destruct l as [|r l]; [done|].
      cbn [fmap list_fmap]. rewrite (HallA r) by left. left.
    + rewrite rows_range_index.
      intros s (r' & -> & Hr')%list_elem_of_fmap. by rewrite (HallA r' Hr').
  - lia.
  - exists df'. split; [done|]. intros k r Hk.
    rewrite (Hrows k (Z.of_nat k) r).
    + by rewrite odd_of_nat.
    + unfold range_index. by rewrite list_lookup_imap, Hk.
Qed.

Lemma correct_tag_ids_relabels_odd_rows_witness :
  (exists df',
     outcome (correct_tag_ids doubled_positions) = inr df'
     /\ index df' = index doubled_positions
     /\ forall k i r, doubled_positions !! k = Some (i, r) ->
          df' !! k = Some (i, if Z.odd i then set_TagID [65 + 1] r else r))
  /\ (flagged (correct_tag_ids doubled_positions)
      /\ exists df',
           outcome (correct_tag_ids doubled_positions) = inr df'
           /\ forall k r, rows doubled_positions !! k = Some r ->
                df' !! k = Some (Z.of_nat k,
                                 if Nat.odd k then set_TagID (str "B") r else r)).
Proof.
  split.
  - apply (proj1 correct_tag_ids_relabels_odd_rows doubled_positions 65).
    + vm_compute. left.
    + split; [vm_compute; left|].
      intros s Hs. each_member Hs.
    + lia.
  - apply (proj2 correct_tag_ids_relabels_odd_rows (rows doubled_positions) 2%nat).
    + intros r Hr. each_member Hr.
    + lia.
    + reflexivity.
Defined.

(** C5 as stated fails: two rows labelled AA are flagged ([1 <> 2 // 1]), and
    [ord] of the two-character identifier raises [TypeError]; nothing is
    relabelled and nothing is returned. *)
Lemma correct_tag_ids_two_letter_id_raises :
  flagged (correct_tag_ids two_letter_positions)
  /\ maximum_id two_letter_positions (str "AA")
  /\ correct_tag_ids two_letter_positions = ([PrintMeasurementError], inl TypeError)
  /\ ~ exists df', outcome (correct_tag_ids two_letter_positions) = inr df'.
Proof.
  split; [vm_compute; left|]. split.
  - split; [vm_compute; left|].
    intros s Hs. each_member Hs.
  - split; [reflexivity|]. by intros [df' [=]].
Qed.

End CorrectorClaims.

(* ===================================================================== *)
(** ** The distance verifier *)
(* ===================================================================== *)

Section Join.

Lemma key_eqb_refl t : key_eqb t t = true.
Proof. unfold key_eqb, PrimFloat.is_nan. by destruct (PrimFloat.eqb t t). Qed.

Lemma rows_select {R} (p : R -> bool) (df : DataFrame R) :
  rows (select p df) = List.filter p (rows df).
Proof.
  unfold rows, select. induction df as [|[i r] df IH]; [done|].
  cbn. destruct (p r); cbn; by rewrite IH.
Qed.

Lemma len_nil_iff {R} (df : DataFrame R) : (len df =? 0) = true <-> df = [].
Proof.
  unfold len. rewrite Z.eqb_eq. destruct df; cbn; [tauto|]. split; [lia|done].
Qed.

Context {A B : Type} (ka : A -> float) (kb : B -> float).

Lemma rows_merge (left : DataFrame A) (right : DataFrame B) :
  rows (merge ka kb left right) = inner_join ka kb (rows left) (rows right).
Proof. unfold merge. by rewrite rows_range_index. Qed.

Lemma filter_none (p : B -> bool) l :
  (forall b, b ∈ l -> p b = false) -> List.filter p l = [].
Proof.
  induction l as [|b l IH]; intros H; [done|]. cbn.
  rewrite (H b) by left. apply IH. intros b' Hb'. apply H. by right.
Qed.



End Join.

Section Verifier.

Variable isfinite_of_both : bool.

Lemma same_time_false s t :
  same_time s t = false -> key_eqb s t = false /\ key_eqb t s = false.
Proof. unfold same_time. by intros H%orb_false_iff. Qed.

(** Joining two reading sets whose timestamps agree row by row and do not
    repeat pairs each row with its counterpart. *)
Lemma inner_join_aligned la : forall lb pre,
  Time_s <$> la = Time_s <$> lb ->
  distinct_times la = true ->
  (forall a p, a ∈ la -> p ∈ pre -> key_eqb (Time_s a) (Time_s p) = false) ->
  inner_join Time_s Time_s la (pre ++ lb) = zip la lb.
Proof.
  induction la as [|a la IH]; intros [|b lb] pre Ht Hd Hpre; try done.
  cbn in Ht. injection Ht as Hab Ht.
  cbn in Hd. apply andb_true_iff in Hd as [Ha Hd].
  rewrite forallb_forall in Ha.
  assert (forall t, t ∈ Time_s <$> la -> same_time (Time_s a) t = false) as Hrest.
  { intros t (r & -> & Hr)%list_elem_of_fmap.
    apply negb_true_iff, Ha. by apply list_elem_of_In. }
  unfold inner_join. cbn [flat_map]. fold (inner_join Time_s Time_s la (pre ++ b :: lb)).
  rewrite List.filter_app. cbn [List.filter].
  rewrite <- Hab, key_eqb_refl.
  rewrite (filter_none _ pre), (filter_none _ lb).
  - cbn. f_equal.
    replace (pre ++ b :: lb) with ((pre ++ [b]) ++ lb) by by rewrite <- app_assoc.
    apply IH; [done|done|].
    intros a' p Ha' [Hp|Hp]%elem_of_app.
    + apply Hpre; [by right|done].
    + apply list_elem_of_singleton in Hp as ->.
      rewrite <- Hab. refine (proj2 (same_time_false _ _ (Hrest _ _))).
      apply list_elem_of_fmap. by exists a'.
  - intros b' Hb'. refine (proj1 (same_time_false _ _ (Hrest _ _))).
    rewrite Ht. apply list_elem_of_fmap. by exists b'.
  - intros p Hp. apply Hpre; [left|done].
Qed.

Lemma merge_aligned (tag_a_df tag_b_df : DataFrame TagReading) :
  Time_s <$> rows tag_a_df = Time_s <$> rows tag_b_df ->
  distinct_times (rows tag_a_df) = true ->
  rows (merge Time_s Time_s tag_a_df tag_b_df)
  = zip (rows tag_a_df) (rows tag_b_df).
Proof.
  intros Ht Hd. rewrite rows_merge.
  apply (inner_join_aligned (rows tag_a_df) (rows tag_b_df) [] Ht Hd).
  intros a p _ Hp. by apply elem_of_nil in Hp.
Qed.

Lemma isclose_dtypes_rows (tag_a_df tag_b_df : DataFrame TagReading) :
  tag_a_df <> [] -> tag_b_df <> [] ->
  isclose_dtypes isfinite_of_both tag_a_df tag_b_df = inr tt.
Proof.
  intros Ha Hb. unfold isclose_dtypes.
  destruct tag_a_df; [done|]. destruct tag_b_df; [done|].
  cbn [header_only]. by rewrite andb_false_r.
Qed.



(** What [verify_distances] reports, in terms of the joined rows, once the
    distance columns have passed line 44. *)
Lemma verify_distances_reports (tag_a_df tag_b_df : DataFrame TagReading) :
  isclose_dtypes isfinite_of_both tag_a_df tag_b_df = inr tt ->
  mismatches_reported
    (trace (verify_distances isfinite_of_both tag_a_df tag_b_df))
  = [report <$> List.filter differing
                  (rows (merge Time_s Time_s tag_a_df tag_b_df))]
  /\ sessions_reported
       (trace (verify_distances isfinite_of_both tag_a_df tag_b_df))
     = [count_uninterrupted
          (within_1_5m (merge Time_s Time_s tag_a_df tag_b_df))]
  /\ outcome (verify_distances isfinite_of_both tag_a_df tag_b_df) = inr tt.
Proof.
  intros Hok. unfold verify_distances, mismatched_distances. rewrite Hok.
  set (merged_tags := merge _ _ _ _).
  rewrite <- (rows_select differing merged_tags).
  fold differing.
  destruct (len (select differing merged_tags) =? 0) eqn:E; cbn.
  - apply len_nil_iff in E. unfold differing in E |- *. by rewrite E.
  - done.
Qed.

Lemma filter_single {X} (p : X -> bool) (l : list X) : forall k x,
  l !! k = Some x -> p x = true ->
  (forall k' y, k' <> k -> l !! k' = Some y -> p y = false) ->
  List.filter p l = [x].
Proof.
  induction l as [|a l IH]; intros k x Hk Hp Hothers; [done|].
  destruct k as [|k]; cbn in Hk |- *.
  - injection Hk as ->. rewrite Hp. f_equal.
    apply filter_none. intros y [k' Hy]%list_elem_of_lookup.
    by apply (Hothers (S k') y).
  - rewrite (Hothers O a) by done.
    apply (IH k x Hk Hp). intros k' y Hne. apply (Hothers (S k') y). lia.
Qed.

Lemma fmap_eq_lookup {X Y} (f : X -> Y) (l l' : list X) k x x' :
  f <$> l = f <$> l' -> l !! k = Some x -> l' !! k = Some x' -> f x = f x'.
Proof.
  intros E Hx Hx'. apply (f_equal (fun m => m !! k)) in E.
  rewrite !list_lookup_fmap, Hx, Hx' in E. by injection E.
Qed.

Lemma lookup_zip {X Y} (l : list X) (l' : list Y) k x y :
  zip l l' !! k = Some (x, y) <-> l !! k = Some x /\ l' !! k = Some y.
Proof.
  rewrite lookup_zip_with_Some. split.
  - by intros (x0 & y0 & [= -> ->] & ? & ?).
  - intros [? ?]. by exists x, y.
Qed.

Lemma distinct_times_by_time l : forall l',
  Time_s <$> l = Time_s <$> l' -> distinct_times l = distinct_times l'.
Proof.
  induction l as [|r l IH]; intros [|r' l'] E; try done.
  cbn in E. injection E as Er E. cbn [distinct_times].
  rewrite (IH l' E), Er. f_equal.
  clear IH. revert l' E. induction l as [|a l IH]; intros [|a' l'] E; try done.
  cbn in E. injection E as Ea E. cbn [forallb]. by rewrite Ea, (IH l' E).
Qed.

Lemma aligned_rows (tag_a_df tag_b_df : DataFrame TagReading) :
  Time_s <$> rows tag_a_df = Time_s <$> rows tag_b_df ->
  tag_a_df <> [] -> tag_b_df <> [].
Proof.
  intros E Ha ->. apply Ha. unfold rows in E.
  apply fmap_nil_inv in E. by apply fmap_nil_inv in E.
Qed.

(** With aligned timestamps that do not repeat, the mismatch table shows the
    rows at which the two distances are not close: none when every pair of
    distances is close, one when they are not close at one row only. *)
Lemma mismatches_aligned_none (tag_a_df tag_b_df : DataFrame TagReading) :
  tag_a_df <> [] ->
  distinct_times (rows tag_a_df) = true ->
  Time_s <$> rows tag_a_df = Time_s <$> rows tag_b_df ->
  (forall k ra rb, rows tag_a_df !! k = Some ra -> rows tag_b_df !! k = Some rb ->
     isclose (Distance_m ra) (Distance_m rb) = true) ->
  mismatches_reported
    (trace (verify_distances isfinite_of_both tag_a_df tag_b_df)) = [[]].
Proof.
  intros Ha Hd Ht Hclose.
  pose proof (isclose_dtypes_rows _ _ Ha (aligned_rows _ _ Ht Ha)) as Hok.
  rewrite (proj1 (verify_distances_reports _ _ Hok)), (merge_aligned _ _ Ht Hd).
  rewrite filter_none; [done|].
  intros [a b] [k Hk]%list_elem_of_lookup. apply lookup_zip in Hk as [Hka Hkb].
  unfold differing. cbn [fst snd]. by rewrite (Hclose k a b Hka Hkb).
Qed.

Lemma mismatches_aligned_single (tag_a_df tag_b_df : DataFrame TagReading)
    k ra rb :
  tag_a_df <> [] ->
  distinct_times (rows tag_a_df) = true ->
  Time_s <$> rows tag_a_df = Time_s <$> rows tag_b_df ->
  rows tag_a_df !! k = Some ra -> rows tag_b_df !! k = Some rb ->
  isclose (Distance_m ra) (Distance_m rb) = false ->
  (forall k' ra' rb', k' <> k ->
     rows tag_a_df !! k' = Some ra' -> rows tag_b_df !! k' = Some rb' ->
     isclose (Distance_m ra') (Distance_m rb') = true) ->
  mismatches_reported
    (trace (verify_distances isfinite_of_both tag_a_df tag_b_df))
  = [[(Time_s ra, Distance_m ra, Distance_m rb)]].
Proof.
  intros Ha Hd Ht Hka Hkb Hfar Hclose.
  pose proof (isclose_dtypes_rows _ _ Ha (aligned_rows _ _ Ht Ha)) as Hok.
  rewrite (proj1 (verify_distances_reports _ _ Hok)), (merge_aligned _ _ Ht Hd).
  rewrite (filter_single differing _ k (ra, rb)); [done| | |].
  - by apply lookup_zip.
  - unfold differing. cbn [fst snd]. by rewrite Hfar.
  - intros k' [a' b'] Hne [Ha' Hb']%lookup_zip.
    unfold differing. cbn [fst snd]. by rewrite (Hclose k' a' b' Hne Ha' Hb').
Qed.

Lemma rows_insert {R} (df : DataFrame R) k i r :
  rows (<[k := (i, r)]> df) = <[k := r]> (rows df).
Proof. unfold rows. by rewrite list_fmap_insert. Qed.

Lemma times_set_distance (df : DataFrame TagReading) k i r d :
  df !! k = Some (i, r) ->
  Time_s <$> rows (<[k := (i, set_Distance_m d r)]> df) = Time_s <$> rows df.
Proof.
  intros Hk. rewrite rows_insert, list_fmap_insert. cbn [set_Distance_m Time_s].
  apply list_insert_id. unfold rows. by rewrite !list_lookup_fmap, Hk.
Qed.


End Verifier.

Section VerifierClaims.



(** [np.isclose] absorbs rounding noise, tells 1.5 from 1.6, and holds NaN
    different from itself; its tolerance is relative to the second argument,
    so the order of the arguments matters. *)
Example isclose_samples :
  isclose 0.3 (0.1 + 0.2) = true
  /\ isclose 1.5 1.6 = false
  /\ isclose infinity infinity = true
  /\ isclose nan nan = false
  /\ isclose 100000 99998.999999995 = false
  /\ isclose 99998.999999995 100000 = true.
Proof. repeat split. Qed.

(** C6, as amended: when tag A's readings have at least one row and
    timestamps that do not repeat, tag B's readings have the same timestamps
    and the same distances row by row, and every distance is close to itself
    (NaN is not), [verify_distances] reports no mismatched row; and when one
    row, of tag B or of tag A, is given a distance [d'] that [np.isclose],
    called with tag A's distance first, tells apart from the other tag's
    distance at that row, it reports exactly that row. *)
Theorem verify_distances_mismatches (isfinite_of_both : bool)
    (tag_a_df tag_b_df : DataFrame TagReading) :
  tag_a_df <> [] ->
  distinct_times (rows tag_a_df) = true ->
  Time_s <$> rows tag_a_df = Time_s <$> rows tag_b_df ->
  Distance_m <$> rows tag_a_df = Distance_m <$> rows tag_b_df ->
  (forall r, r ∈ rows tag_a_df -> isclose (Distance_m r) (Distance_m r) = true) ->
  mismatches_reported
    (trace (verify_distances isfinite_of_both tag_a_df tag_b_df)) = [[]]
  /\ (forall k i r d',
        tag_b_df !! k = Some (i, r) ->
        isclose (Distance_m r) d' = false ->
        mismatches_reported
          (trace (verify_distances isfinite_of_both tag_a_df
                    (<[k := (i, set_Distance_m d' r)]> tag_b_df)))
        = [[(Time_s r, Distance_m r, d')]])
  /\ (forall k i r d',
        tag_a_df !! k = Some (i, r) ->
        isclose d' (Distance_m r) = false ->
        mismatches_reported
          (trace (verify_distances isfinite_of_both
                    (<[k := (i, set_Distance_m d' r)]> tag_a_df) tag_b_df))
        = [[(Time_s r, d', Distance_m r)]]).
Proof.
  intros Hne Hd Ht Hdist Hself.
  assert (forall k ra rb,
            rows tag_a_df !! k = Some ra -> rows tag_b_df !! k = Some rb ->
            isclose (Distance_m ra) (Distance_m rb) = true) as Hclose.
  { intros k ra rb Ha Hb.
    rewrite <- (fmap_eq_lookup Distance_m _ _ k ra rb Hdist Ha Hb).
    apply Hself, list_elem_of_lookup. by exists k. }
  split; [by apply mismatches_aligned_none|]. split.
  - intros k i r d' Hk Hfar.
    assert (rows tag_b_df !! k = Some r) as Hrk
      by (unfold rows; by rewrite list_lookup_fmap, Hk).
    assert (is_Some (rows tag_a_df !! k)) as [a Ha].
    { apply lookup_lt_is_Some.
      rewrite <- (length_fmap Time_s), Ht, length_fmap.
      by apply lookup_lt_Some in Hrk. }
    pose proof (fmap_eq_lookup Time_s _ _ k a r Ht Ha Hrk) as Hta.
    pose proof (fmap_eq_lookup Distance_m _ _ k a r Hdist Ha Hrk) as Hda.
    rewrite (mismatches_aligned_single isfinite_of_both tag_a_df _ k a
               (set_Distance_m d' r)); try done.
    + cbn [set_Distance_m Distance_m]. by rewrite Hta, Hda.
    + by rewrite times_set_distance.
    + rewrite rows_insert. apply list_lookup_insert_eq.
      by apply lookup_lt_Some in Hrk.
    + cbn [set_Distance_m Distance_m]. by rewrite Hda.
    + intros k' ra' rb' Hne' Ha' Hb'. rewrite rows_insert in Hb'.
      rewrite list_lookup_insert_ne in Hb' by done. by apply (Hclose k').
  - intros k i r d' Hk Hfar.
    assert (rows tag_a_df !! k = Some r) as Hrk
      by (unfold rows; by rewrite list_lookup_fmap, Hk).
    assert (is_Some (rows tag_b_df !! k)) as [b Hb].
    { apply lookup_lt_is_Some.
      rewrite <- (length_fmap Time_s), <- Ht, length_fmap.
      by apply lookup_lt_Some in Hrk. }
    pose proof (fmap_eq_lookup Time_s _ _ k r b Ht Hrk Hb) as Htb.
    pose proof (fmap_eq_lookup Distance_m _ _ k r b Hdist Hrk Hb) as Hdb.
    pose proof (times_set_distance tag_a_df k i r d' Hk) as Htimes.
    rewrite (mismatches_aligned_single isfinite_of_both _ tag_b_df k
               (set_Distance_m d' r) b); try done.
    + cbn [set_Distance_m Distance_m Time_s]. by rewrite Hdb.
    + intros E. apply (f_equal length) in E. rewrite length_insert in E.
      by destruct tag_a_df.
    + by rewrite (distinct_times_by_time _ (rows tag_a_df)).
    + by rewrite Htimes.
    + rewrite rows_insert. apply list_lookup_insert_eq.
      by apply lookup_lt_Some in Hrk.
    + cbn [set_Distance_m Distance_m]. by rewrite <- Hdb.
    + intros k' ra' rb' Hne' Ha' Hb'. rewrite rows_insert in Ha'.
      rewrite list_lookup_insert_ne in Ha' by done. by apply (Hclose k').
Qed.

Lemma verify_distances_mismatches_witness :
  mismatches_reported (trace (verify_distances false tag_a_nine tag_a_nine)) = [[]]
  /\ (forall k i r d',
        tag_a_nine !! k = Some (i, r) ->
        isclose (Distance_m r) d' = false ->
        mismatches_reported
          (trace (verify_distances false tag_a_nine
                    (<[k := (i, set_Distance_m d' r)]> tag_a_nine)))
        = [[(Time_s r, Distance_m r, d')]])
  /\ (forall k i r d',
        tag_a_nine !! k = Some (i, r) ->
        isclose d' (Distance_m r) = false ->
        mismatches_reported
          (trace (verify_distances false
                    (<[k := (i, set_Distance_m d' r)]> tag_a_nine) tag_a_nine))
        = [[(Time_s r, d', Distance_m r)]]).
Proof.
  apply (verify_distances_mismatches false tag_a_nine tag_a_nine).
  - discriminate.
  - vm_compute. reflexivity.
  - reflexivity.
  - reflexivity.
  - intros r Hr. each_member Hr.
Defined.

(** C6 as stated fails: a reading set that logs two contacts at one
    timestamp, compared with an identical set, joins each row with both rows
    of the other set, and the two cross pairs are reported as mismatches;
    and two identical reading sets without rows end in [TypeError] with no
    report at all. *)
Lemma verify_distances_repeated_timestamp :
  Time_s <$> rows tag_two_contacts = Time_s <$> rows tag_two_contacts
  /\ Distance_m <$> rows tag_two_contacts = Distance_m <$> rows tag_two_contacts
  /\ mismatches_reported
       (trace (verify_distances true tag_two_contacts tag_two_contacts))
     = [[(0, 1, 2); (0, 2, 1)]%float]
  /\ mismatches_reported
       (trace (verify_distances false tag_two_contacts tag_two_contacts))
     = [[(0, 1, 2); (0, 2, 1)]%float]
  /\ mismatches_reported
       (trace (verify_distances false tag_two_contacts tag_two_contacts))
     <> [[]]
  /\ verify_distances true [] [] = ([], inl TypeError)
  /\ verify_distances false [] [] = ([], inl TypeError).
Proof.
  split; [reflexivity|]. split; [reflexivity|].
  split; [vm_compute; reflexivity|]. split; [vm_compute; reflexivity|].
  split; [vm_compute; intros [=]|]. split; reflexivity.
Qed.

End VerifierClaims.

(* ===================================================================== *)
(** ** The loader *)
(* ===================================================================== *)

Section Loader.

Variable lower : pystr -> pystr.
Variable fs : pystr -> Res Table.

Lemma tag_names_letters person :
  tag_names lower person
  = res_bind (letters person)
      (fun l => inr (str "tag_" ++ lower l, str "Tag" ++ l ++ str ".csv")).
Proof.
  unfold tag_names, letters. destruct (person <=? 25); [done|].
  destruct (chr (person / 26 + 64)) as [e|c1]; [done|]. cbn [res_bind].
  by destruct (chr (person mod 26 + 65)).
Qed.

Lemma elem_of_range n i : i ∈ range n <-> 0 <= i < n.
Proof.
  unfold range. rewrite list_elem_of_fmap. split.
  - intros (k & -> & Hk). apply elem_of_seq in Hk. lia.
  - intros H. exists (Z.to_nat i). split; [lia|]. apply elem_of_seq. lia.
Qed.

Lemma range_snoc n : 0 <= n -> range (n + 1) = range n ++ [n].
Proof.
  intros H. unfold range.
  replace (Z.to_nat (n + 1)) with (S (Z.to_nat n)) by lia.
  rewrite seq_S, fmap_app. cbn. by rewrite Z2Nat.id.
Qed.

Lemma range_split k n : 0 <= k < n -> exists rest, range n = range k ++ k :: rest.
Proof.
  intros H. unfold range.
  replace (Z.to_nat n) with (Z.to_nat k + S (Z.to_nat (n - k - 1)))%nat by lia.
  rewrite seq_app, fmap_app. cbn. rewrite Z2Nat.id by lia. eauto.
Qed.

(** Spreadsheet names, checked name by name up to ZZ. *)
Lemma letters_column_name n :
  0 <= n <= 701 -> letters n = inr (column_name n).
Proof.
  intros H.
  assert (forallb (fun n => match letters n with
                            | inr l => bool_decide (l = column_name n)
                            | inl _ => false
                            end) (range 702) = true) as Hall
    by (vm_compute; reflexivity).
  rewrite forallb_forall in Hall.
  specialize (Hall n). rewrite <- list_elem_of_In, elem_of_range in Hall.
  specialize (Hall ltac:(lia)).
  destruct (letters n) as [e|l]; [done|].
  by apply bool_decide_eq_true in Hall as ->.
Qed.

Lemma letters_single person :
  0 <= person <= 25 -> letters person = inr [person + 65].
Proof.
  intros H. unfold letters, chr.
  destruct (person <=? 25) eqn:E; [|lia].
  destruct (0 <=? person + 65) eqn:E1; [|lia].
  destruct (person + 65 <? 1114112) eqn:E2; [done|lia].
Qed.

Lemma letters_pair person :
  26 <= person < max_numtags ->
  letters person = inr [person / 26 + 64; person mod 26 + 65].
Proof.
  intros H. unfold max_numtags in H. unfold letters, chr.
  destruct (person <=? 25) eqn:E; [lia|].
  pose proof (Z.mod_pos_bound person 26 ltac:(lia)).
  assert (1 <= person / 26 < 1114048).
  { split; [apply Z.div_le_lower_bound; lia|apply Z.div_lt_upper_bound; lia]. }
  destruct (0 <=? person / 26 + 64) eqn:E1; [|lia].
  destruct (person / 26 + 64 <? 1114112) eqn:E2; [|lia].
  destruct (0 <=? person mod 26 + 65) eqn:E3; [|lia].
  destruct (person mod 26 + 65 <? 1114112) eqn:E4; [done|lia].
Qed.

Lemma letters_overflow : letters max_numtags = inl ValueError.
Proof. reflexivity. Qed.

Hypothesis lower_upper : forall c, 65 <= c <= 90 -> lower [c] = [c + 32].
Hypothesis lower_length : forall s, (length s <= length (lower s))%nat.

(** Beyond the first two tags no key is ['tag_a'] or ['tag_b']. *)
Lemma tag_names_other person :
  2 <= person < max_numtags ->
  exists tag_var tagfilename,
    tag_names lower person = inr (tag_var, tagfilename)
    /\ tag_var <> str "tag_a" /\ tag_var <> str "tag_b".
Proof.
  intros H. rewrite tag_names_letters.
  destruct (decide (person <= 25)) as [Hs|Hs].
  - rewrite letters_single by lia. cbn [res_bind].
    do 2 eexists. split; [done|].
    rewrite lower_upper by lia. cbn. split; intros [=]; lia.
  - rewrite letters_pair by lia. cbn [res_bind].
    do 2 eexists. split; [done|].
    pose proof (lower_length [person / 26 + 64; person mod 26 + 65]) as Hl.
    split; intros E; apply (f_equal length) in E;
      rewrite length_app in E; cbn in E, Hl; lia.
Qed.

Lemma data_frames_first_two (m : nat) :
  2 + Z.of_nat m <= max_numtags ->
  exists d : gmap pystr pystr,
    for_each (name_tag lower) (range (2 + Z.of_nat m)) ∅ = inr d
    /\ d !! str "tag_a" = Some (str "TagA.csv")
    /\ d !! str "tag_b" = Some (str "TagB.csv").
Proof.
  induction m as [|m IH]; intros Hm.
  - change (range (2 + Z.of_nat 0)) with [0; 1]. cbn [for_each].
    unfold name_tag. rewrite !tag_names_letters.
    rewrite (letters_single 0) by lia. cbn [res_bind fst snd].
    rewrite (letters_single 1) by lia. cbn [res_bind fst snd].
    change (0 + 65) with 65. change (1 + 65) with 66.
    rewrite (lower_upper 65), (lower_upper 66) by lia.
    eexists. split; [done|]. split.
    + by rewrite lookup_insert_ne, lookup_insert_eq.
    + by rewrite lookup_insert_eq.
  - destruct IH as (d & Hd & Ha & Hb); [lia|].
    replace (2 + Z.of_nat (S m)) with (2 + Z.of_nat m + 1) by lia.
    rewrite range_snoc, for_each_app, Hd by lia. cbn [res_bind for_each].
    destruct (tag_names_other (2 + Z.of_nat m)) as (k & v & Hkv & Hka & Hkb);
      [lia|].
    unfold name_tag. rewrite Hkv. cbn [res_bind fst snd].
    eexists. split; [done|]. by rewrite !lookup_insert_ne.
Qed.

Lemma read_csv_files_in_range position numtags :
  2 <= numtags <= max_numtags ->
  read_csv_files lower fs position numtags = read_three fs position.
Proof.
  intros H.
  destruct (data_frames_first_two (Z.to_nat (numtags - 2))) as (d & Hd & Ha & Hb);
    [lia|].
  replace (2 + Z.of_nat (Z.to_nat (numtags - 2))) with numtags in Hd by lia.
  unfold read_csv_files, read_three, getitem.
  rewrite Hd, run_bind_lift, Ha, run_bind_lift.
  destruct (read_csv fs (str "TagA.csv")) as [t [e|ta]]; [done|].
  cbn [run_bind]. by rewrite Hb, run_bind_lift.
Qed.

Lemma read_csv_files_overflow position numtags :
  max_numtags < numtags ->
  read_csv_files lower fs position numtags = ([], inl ValueError).
Proof.
  intros H.
  destruct (range_split max_numtags numtags) as [rest Hr]; [unfold max_numtags in *; lia|].
  destruct (data_frames_first_two (Z.to_nat (max_numtags - 2))) as (d & Hd & _);
    [unfold max_numtags; lia|].
  replace (2 + Z.of_nat (Z.to_nat (max_numtags - 2))) with max_numtags in Hd
    by (unfold max_numtags; lia).
  unfold read_csv_files. rewrite Hr, for_each_app, Hd. cbn [res_bind for_each].
  unfold name_tag at 1. rewrite tag_names_letters, letters_overflow. reflexivity.
Qed.

Lemma read_three_trace position :
  trace (read_three fs position)
    `prefix_of` [ReadCsv (str "TagA.csv"); ReadCsv (str "TagB.csv"); ReadCsv position].
Proof.
  unfold read_three, read_csv.
  destruct (fs (str "TagA.csv")) as [e|ta]; cbn [run_bind trace fst].
  { by eexists. }
  destruct (fs (str "TagB.csv")) as [e|tb]; cbn [run_bind trace fst app].
  { by eexists. }
  destruct (fs position) as [e|tp]; cbn [run_bind run_ret trace fst app]; done.
Qed.

(** C9, as amended: for tag counts from 2 up to [max_numtags] (28 965 248,
    beyond which [chr] rejects the first letter of a tag name), and for a
    [str.lower] that lowers A-Z as ASCII does and never shortens a string,
    [read_csv_files] does the same whatever the count: it reads [TagA.csv],
    [TagB.csv] and the position file, in that order and nothing else, and
    returns their three tables. *)
Theorem read_csv_files_ignores_tag_count (position : pystr) (n1 n2 : Z) :
  2 <= n1 <= max_numtags ->
  2 <= n2 <= max_numtags ->
  read_csv_files lower fs position n1 = read_csv_files lower fs position n2
  /\ read_csv_files lower fs position n1 = read_three fs position
  /\ trace (read_csv_files lower fs position n1)
       `prefix_of` [ReadCsv (str "TagA.csv"); ReadCsv (str "TagB.csv");
                    ReadCsv position]
  /\ forall ta tb tp,
       outcome (read_csv_files lower fs position n1) = inr (ta, tb, tp) ->
       fs (str "TagA.csv") = inr ta /\ fs (str "TagB.csv") = inr tb
       /\ fs position = inr tp.
Proof.
  intros H1 H2.
  rewrite !read_csv_files_in_range by done.
  split; [done|]. split; [done|]. split; [apply read_three_trace|].
  intros ta tb tp. unfold read_three, read_csv.
  destruct (fs (str "TagA.csv")) as [e|ta']; [done|]. cbn [run_bind].
  destruct (fs (str "TagB.csv")) as [e|tb']; [done|]. cbn [run_bind].
  destruct (fs position) as [e|tp']; [done|]. cbn. by intros [= -> -> ->].
Qed.

End Loader.

Section LoaderNames.

Variable lower : pystr -> pystr.

(** C8, as amended: for every tag index from 0 to 701 the file name built
    by [read_csv_files] is [Tag], the spreadsheet-column name of the index
    and [.csv]: one letter A-Z for 0 to 25, two letters AA, ..., AZ, BA,
    ..., ZZ for 26 to 701. *)
Theorem tag_filename_spreadsheet (n : Z) :
  0 <= n <= 701 ->
  (exists tag_var,
     tag_names lower n = inr (tag_var, str "Tag" ++ column_name n ++ str ".csv")
     /\ forall data_frames,
          name_tag lower data_frames n
          = inr (<[tag_var := str "Tag" ++ column_name n ++ str ".csv"]> data_frames))
  /\ (n <= 25 -> column_name n = [65 + n])
  /\ (26 <= n -> column_name n = [64 + n / 26; 65 + n mod 26]).
Proof.
  intros H. split; [|split].
  - unfold name_tag.
    rewrite tag_names_letters, letters_column_name by done. cbn [res_bind].
    by eexists.
  - intros Hs. pose proof (letters_column_name n H) as E.
    rewrite letters_single in E by lia. injection E as <-. f_equal. lia.
  - intros Hp. pose proof (letters_column_name n H) as E.
    rewrite letters_pair in E by (unfold max_numtags; lia).
    injection E as <-. f_equal; [lia|f_equal; lia].
Qed.

End LoaderNames.

Lemma ascii_lower_upper c : 65 <= c <= 90 -> ascii_lower [c] = [c + 32].
Proof.
  intros H. unfold ascii_lower. cbn.
  destruct (65 <=? c) eqn:E1; [|lia]. destruct (c <=? 90) eqn:E2; [done|lia].
Qed.

Lemma ascii_lower_length s : (length s <= length (ascii_lower s))%nat.
Proof. unfold ascii_lower. by rewrite length_fmap. Qed.

Example column_name_samples :
  column_name 0 = str "A" /\ column_name 25 = str "Z"
  /\ column_name 26 = str "AA" /\ column_name 51 = str "AZ"
  /\ column_name 52 = str "BA" /\ column_name 701 = str "ZZ"
  /\ column_name 702 = str "AAA" /\ column_name 18277 = str "ZZZ".
Proof. repeat split. Qed.

Lemma tag_filename_spreadsheet_witness :
  (exists tag_var,
     tag_names ascii_lower 27
     = inr (tag_var, str "Tag" ++ column_name 27 ++ str ".csv")
     /\ forall data_frames,
          name_tag ascii_lower data_frames 27
          = inr (<[tag_var := str "Tag" ++ column_name 27 ++ str ".csv"]> data_frames))
  /\ (27 <= 25 -> column_name 27 = [65 + 27])
  /\ (26 <= 27 -> column_name 27 = [64 + 27 / 26; 65 + 27 mod 26]).
Proof. apply (tag_filename_spreadsheet ascii_lower 27). lia. Defined.

(** C8 as stated fails: the index 702 is the spreadsheet column AAA, and
    [read_csv_files] names its file [Tag[A.csv]. *)
Lemma tag_filename_702_not_spreadsheet :
  tag_names ascii_lower 702 = inr (str "tag_[a", str "Tag[A.csv")
  /\ column_name 702 = str "AAA"
  /\ ~ exists tag_var,
        tag_names ascii_lower 702
        = inr (tag_var, str "Tag" ++ column_name 702 ++ str ".csv").
Proof.
  split; [reflexivity|]. split; [reflexivity|].
  intros [tag_var E]. vm_compute in E. discriminate E.
Qed.

Lemma read_csv_files_ignores_tag_count_witness :
  read_csv_files ascii_lower (directory tag_a_nine tag_b_nine positions_four)
                 (str "position.csv") 2
  = read_csv_files ascii_lower (directory tag_a_nine tag_b_nine positions_four)
                   (str "position.csv") 5
  /\ read_csv_files ascii_lower (directory tag_a_nine tag_b_nine positions_four)
                    (str "position.csv") 2
     = ([ReadCsv (str "TagA.csv"); ReadCsv (str "TagB.csv");
         ReadCsv (str "position.csv")],
        inr (TagTable tag_a_nine, TagTable tag_b_nine,
             PositionTable positions_four)).
Proof.
  destruct (read_csv_files_ignores_tag_count ascii_lower
              (directory tag_a_nine tag_b_nine positions_four)
              ascii_lower_upper ascii_lower_length (str "position.csv") 2 5)
    as (Hsame & Hthree & _).
  - unfold max_numtags. lia.
  - unfold max_numtags. lia.
  - split; [exact Hsame|]. rewrite Hthree. reflexivity.
Defined.

(** C9 as stated fails: with 28 965 249 tags the naming loop reaches the
    index 28 965 248, whose first letter would be [chr(0x110000)]; [chr]
    raises [ValueError] and no file is read, while with 2 tags the three
    files are read and returned. *)
Lemma read_csv_files_tag_count_overflow :
  2 <= 2 /\ 2 <= max_numtags + 1
  /\ read_csv_files ascii_lower (directory tag_a_nine tag_b_nine positions_four)
                    (str "position.csv") 2
     = ([ReadCsv (str "TagA.csv"); ReadCsv (str "TagB.csv");
         ReadCsv (str "position.csv")],
        inr (TagTable tag_a_nine, TagTable tag_b_nine,
             PositionTable positions_four))
  /\ read_csv_files ascii_lower (directory tag_a_nine tag_b_nine positions_four)
                    (str "position.csv") (max_numtags + 1)
     = ([], inl ValueError)
  /\ read_csv_files ascii_lower (directory tag_a_nine tag_b_nine positions_four)
                    (str "position.csv") 2
     <> read_csv_files ascii_lower (directory tag_a_nine tag_b_nine positions_four)
                       (str "position.csv") (max_numtags + 1).
Proof.
  assert (read_csv_files ascii_lower
            (directory tag_a_nine tag_b_nine positions_four)
            (str "position.csv") 2
          = ([ReadCsv (str "TagA.csv"); ReadCsv (str "TagB.csv");
              ReadCsv (str "position.csv")],
             inr (TagTable tag_a_nine, TagTable tag_b_nine,
                  PositionTable positions_four))) as Htwo.
  { rewrite (read_csv_files_in_range ascii_lower _ ascii_lower_upper
               ascii_lower_length) by (unfold max_numtags; lia).
    reflexivity. }
  assert (read_csv_files ascii_lower
            (directory tag_a_nine tag_b_nine positions_four)
            (str "position.csv") (max_numtags + 1)
          = ([], inl ValueError)) as Hmany.
  { apply (read_csv_files_overflow ascii_lower _ ascii_lower_upper
             ascii_lower_length). lia. }
  split; [lia|]. split; [unfold max_numtags; lia|].
  split; [exact Htwo|]. split; [exact Hmany|].
  rewrite Htwo, Hmany. intros [=].
Qed.

(* ===================================================================== *)
(** ** The whole analysis *)
(* ===================================================================== *)

Section Analysis.

Variable lower : pystr -> pystr.
Variable fs : pystr -> Res Table.
Variable isfinite_of_both : bool.

Lemma len_contact_within (tag_df : DataFrame TagReading) :
  len (contact_within tag_df) = rows_within (rows tag_df).
Proof.
  unfold len, contact_within, select, rows.
  induction tag_df as [|[i r] df IH]; [done|].
  cbn [List.filter fmap list_fmap rows_within snd].
  destruct (PrimFloat.leb (Distance_m r) 1.5); cbn [length]; lia.
Qed.

(** [analyse] on three tables of the right schemas, by the outcomes of the
    label correction and of the distance check. *)
Lemma analyse_tables a b p :
  analyse isfinite_of_both (TagTable a) (TagTable b) (PositionTable p)
  = match correct_tag_ids p with
    | (t, inl e) =>
        (PrintContactIDs (unique (ContactID <$> rows a))
                         (unique (ContactID <$> rows b)) :: t, inl e)
    | (t, inr p') =>
        match outcome (verify_distances isfinite_of_both a b) with
        | inl e =>
            (PrintContactIDs (unique (ContactID <$> rows a))
                             (unique (ContactID <$> rows b))
               :: t ++ trace (verify_distances isfinite_of_both a b),
             inl e)
        | inr _ =>
            (PrintContactIDs (unique (ContactID <$> rows a))
                             (unique (ContactID <$> rows b))
               :: t ++ trace (verify_distances isfinite_of_both a b)
               ++ [PrintDuration
                     (total_contact_duration (contact_within a)
                                             (contact_within b));
                   plot_of p'
                     (contact_positions (str "A") (contact_within a) p')],
             inr tt)
        end
    end.
Proof.
  unfold analyse. cbn [tag_columns position_columns lift run_bind check_tag_connections emit].
  destruct (correct_tag_ids p) as [t [e|p']]; [done|].
  cbn [run_bind].
  destruct (verify_distances isfinite_of_both a b) as [tv [e|[]]];
    cbn [run_bind emit plot_positions trace outcome fst snd app];
    unfold plot_of; reflexivity.
Qed.

Lemma tag_analysis_read tag_a tag_b position numtags tr ta tb tp :
  read_csv_files lower fs position numtags = (tr, inr (ta, tb, tp)) ->
  tag_analysis lower fs isfinite_of_both tag_a tag_b position numtags
  = (tr ++ trace (analyse isfinite_of_both ta tb tp),
     outcome (analyse isfinite_of_both ta tb tp)).
Proof.
  intros H. unfold tag_analysis. rewrite H. cbn [run_bind].
  by destruct (analyse isfinite_of_both ta tb tp).
Qed.


Lemma correct_tag_ids_trace p :
  trace (correct_tag_ids p) = [] \/ trace (correct_tag_ids p) = [PrintMeasurementError].
Proof.
  destruct (decide (p = [])) as [->|Hne]; [by left|].
  rewrite (correct_tag_ids_nonempty p Hne).
  destruct (negb _); [right|left]; done.
Qed.







End Analysis.


Lemma read_sample_directory a b p :
  read_csv_files ascii_lower (directory a b p) (str "position.csv") 2
  = ([ReadCsv (str "TagA.csv"); ReadCsv (str "TagB.csv");
      ReadCsv (str "position.csv")],
     inr (TagTable a, TagTable b, PositionTable p)).
Proof.
  rewrite (read_csv_files_in_range ascii_lower _ ascii_lower_upper
             ascii_lower_length) by (unfold max_numtags; lia).
  reflexivity.
Qed.






(* ===================================================================== *)
(** ** Further properties: the connectivity checker and the label corrector *)
(* ===================================================================== *)

Section ConnectivityChecker.

Lemma unique_from_sublist l : forall seen, unique_from seen l `sublist_of` l.
Proof.
  induction l as [|s l IH]; intros seen; cbn; [done|].
  destruct (decide (s ∈ seen)).
  - by apply sublist_cons.
  - by apply sublist_skip.
Qed.

Lemma unique_from_order l : forall seen (i j : nat) s t,
  unique_from seen l !! i = Some s ->
  unique_from seen l !! j = Some t ->
  (i < j)%nat ->
  exists k : nat, l !! k = Some s /\ forall k' : nat, l !! k' = Some t -> (k < k')%nat.
Proof.
  induction l as [|a l IH]; intros seen i j s t Hi Hj Hlt; [done|].
  cbn [unique_from] in Hi, Hj.
  destruct (decide (a ∈ seen)) as [Ha|Ha].
  - destruct (IH seen i j s t Hi Hj Hlt) as (k & Hk & Hfirst).
    exists (S k). split; [done|]. intros [|k'] Hk'.
    + cbn in Hk'. injection Hk' as Hk'. subst a.
      apply list_elem_of_lookup_2 in Hj.
      apply (proj1 (proj2 (unique_from_spec l seen) t)) in Hj. tauto.
    + apply Hfirst in Hk'. lia.
  - destruct j as [|j]; [lia|]. cbn in Hj.
    apply list_elem_of_lookup_2 in Hj as Hin.
    apply (proj1 (proj2 (unique_from_spec l (a :: seen)) t)) in Hin.
    destruct Hin as [_ Hin].
    assert (t <> a) as Hne by (intros ->; apply Hin; left).
    destruct i as [|i].
    + cbn in Hi. injection Hi as Hi. subst a. exists 0%nat. split; [done|].
      intros [|k'] Hk'; [|lia]. cbn in Hk'. by injection Hk' as Hk'.
    + cbn in Hi.
      destruct (IH (a :: seen) i j s t Hi Hj ltac:(lia)) as (k & Hk & Hfirst).
      exists (S k). split; [done|]. intros [|k'] Hk'.
      * cbn in Hk'. by injection Hk' as Hk'.
      * apply Hfirst in Hk'. lia.
Qed.

(** X1: [check_tag_connections] never raises and prints, for each tag, the
    contact identifiers of its readings: each identifier once, none that is
    not in the readings, in the order in which they first appear: of two
    identifiers printed, the one printed first occurs in the readings before
    every occurrence of the other; readings with contacts B, C, B print
    B, C. *)
Theorem check_tag_connections_reports_distinct_ids
    (tag_a_df tag_b_df : DataFrame TagReading) :
  exists ids_a ids_b,
    check_tag_connections tag_a_df tag_b_df
      = ([PrintContactIDs ids_a ids_b], inr tt)
    /\ NoDup ids_a /\ NoDup ids_b
    /\ (forall s, s ∈ ids_a <-> exists r, r ∈ rows tag_a_df /\ ContactID r = s)
    /\ (forall s, s ∈ ids_b <-> exists r, r ∈ rows tag_b_df /\ ContactID r = s)
    /\ ids_a `sublist_of` (ContactID <$> rows tag_a_df)
    /\ ids_b `sublist_of` (ContactID <$> rows tag_b_df)
    /\ (forall (i j : nat) s t,
          ids_a !! i = Some s -> ids_a !! j = Some t -> (i < j)%nat ->
          exists k : nat,
            (ContactID <$> rows tag_a_df) !! k = Some s
            /\ forall k' : nat,
                 (ContactID <$> rows tag_a_df) !! k' = Some t -> (k < k')%nat)
    /\ (forall (i j : nat) s t,
          ids_b !! i = Some s -> ids_b !! j = Some t -> (i < j)%nat ->
          exists k : nat,
            (ContactID <$> rows tag_b_df) !! k = Some s
            /\ forall k' : nat,
                 (ContactID <$> rows tag_b_df) !! k' = Some t -> (k < k')%nat)
    /\ check_tag_connections
         (range_index [reading 0 "B" 1; reading 0.1 "C" 1; reading 0.2 "B" 1])
         (range_index [reading 0 "C" 1; reading 0.1 "A" 1; reading 0.2 "C" 1;
                       reading 0.3 "A" 1; reading 0.4 "B" 1])
       = ([PrintContactIDs [str "B"; str "C"] [str "C"; str "A"; str "B"]],
          inr tt).
Proof.
  do 2 eexists. split; [reflexivity|].
  split; [apply unique_NoDup|]. split; [apply unique_NoDup|].
  split; [|split; [|split; [apply unique_from_sublist|]]].
  3: split; [apply unique_from_sublist|].
  3: split; [|split; [|reflexivity]].
  - intros s. rewrite elem_of_unique, list_elem_of_fmap.
    split; intros (r & ? & ?); by exists r.
  - intros s. rewrite elem_of_unique, list_elem_of_fmap.
    split; intros (r & ? & ?); by exists r.
  - intros i j s t. apply unique_from_order.
  - intros i j s t. apply unique_from_order.
Qed.

End ConnectivityChecker.

Section CorrectorMore.

Lemma correct_tag_ids_returns df df' :
  outcome (correct_tag_ids df) = inr df' ->
  df' = df \/ exists v, df' = relabel_odd v df.
Proof.
  destruct (decide (df = [])) as [->|Hne]; [done|].
  rewrite (correct_tag_ids_nonempty df Hne).
  destruct (negb _); cbn [outcome snd].
  - destruct (next_letter df) as [e|v]; cbn [res_bind]; [done|].
    intros [= <-]. right. by exists v.
  - intros [= <-]. by left.
Qed.

Lemma relabel_odd_columns {X} (f : PositionRecord -> X) v df :
  (forall w r, f (set_TagID w r) = f r) ->
  f <$> rows (relabel_odd v df) = f <$> rows df.
Proof.
  intros Hf. unfold rows, relabel_odd. rewrite <- !list_fmap_compose.
  apply list_fmap_ext. intros k [i r] _. cbn.
  destruct (i mod 2 =? 1); cbn; [apply Hf|done].
Qed.

(** X2: whatever [correct_tag_ids] returns has the rows of its input in the
    same order under the same index, with the same timestamps and
    coordinates; a row whose [TagID] differs sits at an odd index. *)
Theorem correct_tag_ids_keeps_other_columns (df df' : DataFrame PositionRecord) :
  outcome (correct_tag_ids df) = inr df' ->
  index df' = index df
  /\ len df' = len df
  /\ pos_Time_s <$> rows df' = pos_Time_s <$> rows df
  /\ x_m <$> rows df' = x_m <$> rows df
  /\ y_m <$> rows df' = y_m <$> rows df
  /\ forall k i r, df !! k = Some (i, r) ->
       exists r', df' !! k = Some (i, r')
                  /\ (TagID r' <> TagID r -> Z.odd i = true).
Proof.
  intros [->|[v ->]]%correct_tag_ids_returns.
  - repeat split; try done. intros k i r Hk. by exists r.
  - split; [apply relabel_odd_index|].
    split; [unfold len, relabel_odd; by rewrite length_fmap|].
    split; [by apply relabel_odd_columns|].
    split; [by apply relabel_odd_columns|].
    split; [by apply relabel_odd_columns|].
    intros k i r Hk. rewrite (relabel_odd_lookup v df k i r Hk).
    eexists. split; [done|]. by destruct (Z.odd i).
Qed.

Lemma correct_tag_ids_keeps_other_columns_witness :
  index (relabel_odd (str "B") doubled_positions) = index doubled_positions
  /\ len (relabel_odd (str "B") doubled_positions) = len doubled_positions
  /\ pos_Time_s <$> rows (relabel_odd (str "B") doubled_positions)
     = pos_Time_s <$> rows doubled_positions
  /\ x_m <$> rows (relabel_odd (str "B") doubled_positions)
     = x_m <$> rows doubled_positions
  /\ y_m <$> rows (relabel_odd (str "B") doubled_positions)
     = y_m <$> rows doubled_positions
  /\ forall k i r, doubled_positions !! k = Some (i, r) ->
       exists r', relabel_odd (str "B") doubled_positions !! k = Some (i, r')
                  /\ (TagID r' <> TagID r -> Z.odd i = true).
Proof.
  apply (correct_tag_ids_keeps_other_columns doubled_positions). reflexivity.
Defined.

Lemma floor_quotient_fixed n m :
  0 < n -> (n = m / n <-> n * n <= m < n * n + n).
Proof.
  intros Hn. split.
  - intros E. pose proof (Z.mul_div_le m n Hn).
    pose proof (Z.mul_succ_div_gt m n Hn). rewrite <- E in *. lia.
  - intros H. apply (Z.div_unique m n n (m - n * n)); lia.
Qed.

(** X3: a dataset with rows and [n] distinct identifiers passes
    [correct_tag_ids] unflagged and unchanged exactly when its row count is
    at least [n * n] and below [n * n + n]; with two identifiers that is 4 or
    5 rows. *)
Theorem correct_tag_ids_unflagged_row_counts (df : DataFrame PositionRecord) :
  df <> [] ->
  (correct_tag_ids df = ([], inr df)
     <-> distinct_tags df * distinct_tags df <= len df
         < distinct_tags df * distinct_tags df + distinct_tags df)
  /\ (distinct_tags df = 2 ->
      (correct_tag_ids df = ([], inr df) <-> len df = 4 \/ len df = 5)).
Proof.
  intros Hne. pose proof (distinct_tags_pos df Hne) as Hpos.
  assert (correct_tag_ids df = ([], inr df)
          <-> distinct_tags df = len df / distinct_tags df) as Hiff.
  { rewrite (correct_tag_ids_nonempty df Hne).
    destruct (distinct_tags df =? _) eqn:E; cbn [negb].
    - by apply Z.eqb_eq in E.
    - apply Z.eqb_neq in E. split; [by intros [=]|done]. }
  split.
  - rewrite Hiff. by apply floor_quotient_fixed.
  - intros H2. rewrite Hiff, (floor_quotient_fixed _ _ Hpos), H2. lia.
Qed.

Lemma correct_tag_ids_unflagged_row_counts_witness :
  (correct_tag_ids positions_four = ([], inr positions_four)
     <-> distinct_tags positions_four * distinct_tags positions_four
           <= len positions_four
         < distinct_tags positions_four * distinct_tags positions_four
           + distinct_tags positions_four)
  /\ (distinct_tags positions_four = 2 ->
      (correct_tag_ids positions_four = ([], inr positions_four)
         <-> len positions_four = 4 \/ len positions_four = 5)).
Proof.
  apply (correct_tag_ids_unflagged_row_counts positions_four). discriminate.
Defined.

(** X4: when the error is flagged and the largest identifier is not a single
    character, [correct_tag_ids] has printed the message and ends in
    [TypeError]; when it is the last code point, it ends in [ValueError]; in
    both cases nothing is returned. *)
Theorem correct_tag_ids_bad_largest_identifier
    (df : DataFrame PositionRecord) (m : pystr) :
  flagged (correct_tag_ids df) ->
  maximum_id df m ->
  (length m <> 1%nat ->
     correct_tag_ids df = ([PrintMeasurementError], inl TypeError))
  /\ (m = [0x10FFFF] ->
      correct_tag_ids df = ([PrintMeasurementError], inl ValueError)).
Proof.
  intros Hflag Hmax.
  pose proof (flagged_has_rows df Hflag) as Hne.
  apply (flagged_nonempty df Hne) in Hflag. apply Z.eqb_neq in Hflag.
  rewrite (correct_tag_ids_nonempty df Hne), Hflag. cbn [negb].
  unfold next_letter. rewrite (max_str_maximum_id df m Hmax). cbn [res_bind].
  split.
  - intros Hlen. destruct m as [|c [|c' m]]; try done.
  - intros ->. reflexivity.
Qed.

Lemma correct_tag_ids_bad_largest_identifier_witness :
  (length (str "AA") <> 1%nat ->
     correct_tag_ids two_letter_positions = ([PrintMeasurementError], inl TypeError))
  /\ (str "AA" = [0x10FFFF] ->
      correct_tag_ids two_letter_positions = ([PrintMeasurementError], inl ValueError)).
Proof.
  apply (correct_tag_ids_bad_largest_identifier two_letter_positions (str "AA")).
  - vm_compute. left.
  - split; [vm_compute; left|]. intros s Hs. each_member Hs.
Defined.

Lemma below_successor c s : str_ltb [c] s = false -> str_ltb s [c + 1] = true.
Proof.
  destruct s as [|a s]; [done|]. cbn.
  rewrite orb_false_iff, andb_false_iff, Z.ltb_ge, Z.eqb_neq.
  intros [Hle Hs]. apply orb_true_iff. left. apply Z.ltb_lt.
  destruct Hs as [Hne|Hs]; [lia|].
  destruct s; [|done]. lia.
Qed.

(** X5: the identifier [correct_tag_ids] writes is new: when the largest
    identifier of the dataset is the single character [c], the identifier
    [chr(c + 1)] is greater than every identifier of the dataset and is none
    of them, and it is the one the rows at odd index receive. *)
Theorem correct_tag_ids_next_letter_is_unused
    (df : DataFrame PositionRecord) (c : Z) :
  maximum_id df [c] ->
  0 <= c < 0x10FFFF ->
  next_letter df = inr [c + 1]
  /\ ([c + 1] ∉ TagID <$> rows df)
  /\ (forall s, s ∈ TagID <$> rows df -> str_ltb s [c + 1] = true)
  /\ (flagged (correct_tag_ids df) ->
      outcome (correct_tag_ids df) = inr (relabel_odd [c + 1] df)).
Proof.
  intros Hmax Hc.
  assert (forall s, s ∈ TagID <$> rows df -> str_ltb s [c + 1] = true) as Hlt.
  { intros s Hs. apply below_successor. by apply Hmax. }
  split; [by apply next_letter_single|]. split; [|split; [done|]].
  - intros Hin. apply Hlt in Hin. by rewrite str_ltb_irrefl in Hin.
  - intros Hflag. pose proof (flagged_has_rows df Hflag) as Hne.
    apply (flagged_nonempty df Hne) in Hflag. apply Z.eqb_neq in Hflag.
    rewrite (correct_tag_ids_nonempty df Hne), Hflag. cbn [negb].
    by rewrite (next_letter_single df c Hmax Hc).
Qed.

Lemma correct_tag_ids_next_letter_is_unused_witness :
  next_letter clean_positions = inr (str "C")
  /\ (str "C" ∉ TagID <$> rows clean_positions)
  /\ (forall s, s ∈ TagID <$> rows clean_positions -> str_ltb s (str "C") = true)
  /\ (flagged (correct_tag_ids clean_positions) ->
      outcome (correct_tag_ids clean_positions)
      = inr (relabel_odd (str "C") clean_positions)).
Proof.
  apply (correct_tag_ids_next_letter_is_unused clean_positions 66).
  - split; [vm_compute; right; left|]. intros s Hs. each_member Hs.
  - lia.
Defined.

End CorrectorMore.

Section Doubled.

Lemma relabel_odd_range_index v (l : list PositionRecord) :
  relabel_odd v (range_index l)
  = range_index (imap (fun i r => if Nat.odd i then set_TagID v r else r) l).
Proof.
  unfold relabel_odd, range_index. apply list_eq. intros k.
  rewrite list_lookup_fmap, !list_lookup_imap.
  destruct (l !! k) as [r|]; [|done]. cbn.
  rewrite Zmod_odd, odd_of_nat. by destruct (Nat.odd k).
Qed.

Lemma imap_paired_rows (g : nat -> PositionRecord -> PositionRecord) pairs :
  (forall i r, g (S (S i)) r = g i r) ->
  imap g (paired_rows pairs)
  = flat_map (fun p => [g 0%nat (fst p); g 1%nat (snd p)]) pairs.
Proof.
  intros Hg. induction pairs as [|p pairs IH]; [done|].
  cbn [paired_rows flat_map app imap]. f_equal. f_equal.
  rewrite <- IH. apply imap_ext. intros i r _. apply Hg.
Qed.

Lemma unique_all_same s l :
  l <> [] -> (forall t, t ∈ l -> t = s) -> unique l = [s].
Proof.
  destruct l as [|a l]; [done|]. intros _ Hall.
  rewrite unique_cons, (Hall a) by left.
  rewrite unique_from_same; [done|]. intros t Ht. apply Hall. by right.
Qed.

(** X6: a dataset read from a file in which every timestamp is logged as
    two consecutive rows, all labelled A, is flagged and comes back with the
    second row of every pair labelled B and everything else as it was. *)
Theorem correct_tag_ids_repairs_doubled_labels
    (pairs : list (PositionRecord * PositionRecord)) :
  pairs <> [] ->
  (forall r, r ∈ paired_rows pairs -> TagID r = str "A") ->
  correct_tag_ids (range_index (paired_rows pairs))
  = ([PrintMeasurementError],
     inr (range_index (repaired_rows (str "B") pairs))).
Proof.
  intros Hne HallA.
  assert (2 <= len (range_index (paired_rows pairs))) as Hlen.
  { unfold len, range_index. rewrite length_imap.
    destruct pairs as [|p pairs]; [done|].
    cbn [paired_rows flat_map app length]. lia. }
  assert (range_index (paired_rows pairs) <> []) as Hdf.
  { intros E. rewrite E in Hlen. unfold len in Hlen. cbn [length] in Hlen. lia. }
  assert (paired_rows pairs <> []) as Hrows.
  { intros E. rewrite E in Hdf. done. }
  assert (unique (TagID <$> rows (range_index (paired_rows pairs))) = [str "A"])
    as Huniq.
  { rewrite rows_range_index. apply unique_all_same.
    - intros E. apply fmap_nil_inv in E. done.
    - intros t (r & -> & Hr)%list_elem_of_fmap. by apply HallA. }
  assert (distinct_tags (range_index (paired_rows pairs)) = 1) as Hone
    by (by rewrite <- distinct_tags_unique, Huniq).
  rewrite (correct_tag_ids_nonempty _ Hdf), Hone, Z.div_1_r.
  destruct (1 =? len (range_index (paired_rows pairs))) eqn:E;
    [apply Z.eqb_eq in E; lia|].
  assert (next_letter (range_index (paired_rows pairs)) = inr (str "B"))
    as Hnext by (unfold next_letter; rewrite Huniq; reflexivity).
  rewrite Hnext. cbn [negb res_bind].
  rewrite relabel_odd_range_index. do 3 f_equal.
  unfold repaired_rows. by rewrite imap_paired_rows.
Qed.

Lemma correct_tag_ids_repairs_doubled_labels_witness :
  correct_tag_ids
    (range_index (paired_rows [(position 0 "A" 1 1, position 0 "A" 2 2);
                               (position 0.1 "A" 1 2, position 0.1 "A" 2 3)]))
  = ([PrintMeasurementError],
     inr (range_index
            (repaired_rows (str "B")
               [(position 0 "A" 1 1, position 0 "A" 2 2);
                (position 0.1 "A" 1 2, position 0.1 "A" 2 3)]))).
Proof.
  apply correct_tag_ids_repairs_doubled_labels; [discriminate|].
  intros r Hr. each_member Hr.
Defined.

End Doubled.

Section Alternating.

Lemma unique_from_seen seen l :
  (forall t, t ∈ l -> t ∈ seen) -> unique_from seen l = [].
Proof.
  induction l as [|a l IH]; intros Hall; [done|]. cbn.
  destruct (decide (a ∈ seen)) as [_|H]; [|by destruct H; apply Hall; left].
  apply IH. intros t Ht. apply Hall. by right.
Qed.

Lemma elem_of_paired_rows pairs r :
  r ∈ paired_rows pairs <-> exists p, p ∈ pairs /\ (r = fst p \/ r = snd p).
Proof.
  unfold paired_rows. rewrite list_elem_of_In, in_flat_map. split.
  - intros (p & Hp & Hr). exists p. split; [by apply list_elem_of_In|].
    cbn in Hr. destruct Hr as [<-|[<-|[]]]; [by left|by right].
  - intros (p & Hp & Hr). exists p. split; [by apply list_elem_of_In|].
    cbn. destruct Hr as [-> | ->]; [by left|by right; left].
Qed.

Lemma select_repaired_rows pairs :
  (forall p, p ∈ pairs -> TagID (fst p) = str "A") ->
  select (fun r => bool_decide (TagID r = str "B"))
         (range_index (repaired_rows (str "C") pairs)) = [].
Proof.
  intros HA. unfold select. apply filter_none.
  intros [i r] [k Hk]%list_elem_of_lookup. cbn [snd].
  unfold range_index in Hk. rewrite list_lookup_imap in Hk.
  destruct (repaired_rows (str "C") pairs !! k) as [r0|] eqn:E; [|done].
  injection Hk as _ <-.
  apply list_elem_of_lookup_2, list_elem_of_In, in_flat_map in E
    as (p & Hp%list_elem_of_In & Hr).
  apply bool_decide_eq_false. cbn in Hr.
  destruct Hr as [<-|[<-|[]]]; [by rewrite HA|done].
Qed.

(** X19: a dataset read from a file that logs every timestamp as a row of
    tag A followed by a row of tag B, with any number of timestamps other
    than two, is flagged although nothing is mislabelled: every row of tag B
    comes back labelled C, and the corrected dataset has no row of tag B
    left for [plot_positions] to draw. *)
Theorem correct_tag_ids_relabels_alternating_tags
    (pairs : list (PositionRecord * PositionRecord)) :
  pairs <> [] ->
  length pairs <> 2%nat ->
  (forall p, p ∈ pairs -> TagID (fst p) = str "A" /\ TagID (snd p) = str "B") ->
  correct_tag_ids (range_index (paired_rows pairs))
    = ([PrintMeasurementError],
       inr (range_index (repaired_rows (str "C") pairs)))
  /\ select (fun r => bool_decide (TagID r = str "B"))
            (range_index (repaired_rows (str "C") pairs)) = [].
Proof.
  intros Hne Htwo Htags.
  split; [|apply select_repaired_rows; intros p Hp; by apply Htags].
  destruct pairs as [|p0 pairs]; [done|].
  set (df := range_index (paired_rows (p0 :: pairs))).
  assert (len df = 2 * Z.of_nat (length (p0 :: pairs))) as Hlen.
  { unfold df, len, range_index. rewrite length_imap.
    unfold paired_rows. generalize (p0 :: pairs). intros l.
    induction l as [|q l IH]; [done|]. cbn [flat_map app length] in *. lia. }
  assert (df <> []) as Hdf.
  { intros E. rewrite E in Hlen. unfold len in Hlen. cbn [length] in Hlen. lia. }
  assert (unique (TagID <$> rows df) = [str "A"; str "B"]) as Huniq.
  { unfold df. rewrite rows_range_index.
    cbn [paired_rows flat_map app fmap list_fmap].
    destruct (Htags p0 ltac:(left)) as [-> ->].
    rewrite unique_cons. cbn [unique_from].
    destruct (decide (str "B" ∈ [str "A"])) as [Hin|_].
    { apply list_elem_of_singleton in Hin. done. }
    rewrite unique_from_seen; [done|].
    intros t (r & -> & Hr)%list_elem_of_fmap.
    apply (elem_of_paired_rows pairs) in Hr as (p & Hp & [-> | ->]);
      destruct (Htags p ltac:(by right)) as [EA EB].
    - rewrite EA. right. left.
    - rewrite EB. left. }
  assert (distinct_tags df = 2) as Hd
    by (by rewrite <- distinct_tags_unique, Huniq).
  assert (next_letter df = inr (str "C")) as Hnext
    by (unfold next_letter; rewrite Huniq; reflexivity).
  rewrite (correct_tag_ids_nonempty df Hdf), Hd, Hlen, Hnext.
  replace (2 * Z.of_nat (length (p0 :: pairs)) / 2)
    with (Z.of_nat (length (p0 :: pairs)))
    by (rewrite Z.mul_comm, Z.div_mul; lia).
  destruct (2 =? Z.of_nat (length (p0 :: pairs))) eqn:E;
    [apply Z.eqb_eq in E; lia|].
  cbn [negb res_bind]. unfold df. rewrite relabel_odd_range_index.
  do 3 f_equal. unfold repaired_rows. by rewrite imap_paired_rows.
Qed.

Lemma correct_tag_ids_relabels_alternating_tags_witness :
  correct_tag_ids
    (range_index (paired_rows [(position 0 "A" 1 1, position 0 "B" 2 2);
                               (position 0.1 "A" 1 2, position 0.1 "B" 2 3);
                               (position 0.2 "A" 1 3, position 0.2 "B" 2 4)]))
    = ([PrintMeasurementError],
       inr (range_index
              (repaired_rows (str "C")
                 [(position 0 "A" 1 1, position 0 "B" 2 2);
                  (position 0.1 "A" 1 2, position 0.1 "B" 2 3);
                  (position 0.2 "A" 1 3, position 0.2 "B" 2 4)])))
  /\ select (fun r => bool_decide (TagID r = str "B"))
            (range_index
               (repaired_rows (str "C")
                  [(position 0 "A" 1 1, position 0 "B" 2 2);
                   (position 0.1 "A" 1 2, position 0.1 "B" 2 3);
                   (position 0.2 "A" 1 3, position 0.2 "B" 2 4)])) = [].
Proof.
  apply correct_tag_ids_relabels_alternating_tags; [discriminate|discriminate|].
  intros p Hp.
  repeat (apply elem_of_cons in Hp as [->|Hp]; [by split|]).
  by apply elem_of_nil in Hp.
Defined.

End Alternating.

(* ===================================================================== *)
(** ** Further properties: the distance verifier and the joins *)
(* ===================================================================== *)

Section Sessions.

Lemma runs_from_nonneg w : forall prev, 0 <= runs_from prev w.
Proof.
  induction w as [|b w IH]; intros prev; cbn [runs_from]; [done|].
  specialize (IH b). destruct (b && negb prev); lia.
Qed.

Lemma runs_from_half w : forall prev,
  2 * runs_from prev w <= Z.of_nat (length w) + (if prev then 0 else 1).
Proof.
  induction w as [|b w IH]; intros prev; cbn [runs_from length].
  - destruct prev; lia.
  - specialize (IH b). destruct b, prev; cbn [andb negb] in *; lia.
Qed.

Lemma runs_from_true_rows w : forall prev, runs_from prev w <= true_rows w.
Proof.
  induction w as [|b w IH]; intros prev; cbn [runs_from true_rows]; [done|].
  specialize (IH b). destruct b, prev; cbn [andb negb]; lia.
Qed.

Lemma runs_from_zero w : runs_from false w = 0 <-> forall b, b ∈ w -> b = false.
Proof.
  induction w as [|b w IH]; cbn [runs_from].
  - split; [|done]. intros _ b Hb. by apply elem_of_nil in Hb.
  - destruct b; cbn [andb negb].
    + pose proof (runs_from_nonneg w true) as Hpos. split; [lia|].
      intros Hall. by specialize (Hall true ltac:(left)).
    + rewrite Z.add_0_l, IH. split.
      * intros H b [->|Hb]%elem_of_cons; [done|by apply H].
      * intros H b Hb. apply H. by right.
Qed.

Lemma runs_from_app w1 : forall prev w2,
  runs_from prev (w1 ++ w2)
  = runs_from prev w1 + runs_from (default prev (last w1)) w2.
Proof.
  induction w1 as [|b w1 IH]; intros prev w2; cbn [app runs_from].
  - cbn [last default]. unfold id. lia.
  - rewrite IH. destruct w1 as [|b' w1].
    + cbn [last default runs_from]. unfold id. lia.
    + rewrite last_cons_cons. cbn [default].
      destruct (last (b' :: w1)) eqn:E; cbn [default]; unfold id; [lia|].
      by apply last_None in E.
Qed.

(** X7: when both tag tables have rows, [verify_distances] prints one
    session count; it is never negative, is at most half the number of joined
    rows rounded up, and is zero exactly when no joined row has both
    distances within 1.5. *)
Theorem verify_distances_session_bounds (isfinite_of_both : bool)
    (tag_a_df tag_b_df : DataFrame TagReading) :
  tag_a_df <> [] -> tag_b_df <> [] ->
  exists n,
    sessions_reported
      (trace (verify_distances isfinite_of_both tag_a_df tag_b_df)) = [n]
    /\ 0 <= n
    /\ 2 * n <= len (merge Time_s Time_s tag_a_df tag_b_df) + 1
    /\ (n = 0 <->
        forall ab, ab ∈ rows (merge Time_s Time_s tag_a_df tag_b_df) ->
          PrimFloat.leb (Distance_m (fst ab)) 1.5
          && PrimFloat.leb (Distance_m (snd ab)) 1.5 = false).
Proof.
  intros Ha Hb. eexists.
  split; [by apply verify_distances_reports, isclose_dtypes_rows|].
  rewrite count_uninterrupted_runs_from.
  split; [apply runs_from_nonneg|]. split.
  - pose proof (runs_from_half
                  (within_1_5m (merge Time_s Time_s tag_a_df tag_b_df)) false) as H.
    unfold within_1_5m, rows in H. rewrite !length_fmap in H. apply H.
  - rewrite runs_from_zero. unfold within_1_5m. split.
    + intros H ab Hab. apply H. apply list_elem_of_fmap. by exists ab.
    + intros H b (ab & -> & Hab)%list_elem_of_fmap. by apply H.
Qed.

Lemma verify_distances_session_bounds_witness :
  exists n,
    sessions_reported (trace (verify_distances false tag_a_nine tag_b_nine))
    = [n]
    /\ 0 <= n
    /\ 2 * n <= len (merge Time_s Time_s tag_a_nine tag_b_nine) + 1
    /\ (n = 0 <->
        forall ab, ab ∈ rows (merge Time_s Time_s tag_a_nine tag_b_nine) ->
          PrimFloat.leb (Distance_m (fst ab)) 1.5
          && PrimFloat.leb (Distance_m (snd ab)) 1.5 = false).
Proof.
  apply (verify_distances_session_bounds false tag_a_nine tag_b_nine);
    discriminate.
Defined.

(** X8: counting sessions splits at a row outside the threshold: the count
    of a sequence of flags with such a row in it is the count before the row
    plus the count after it; at any other cut the two counts add up to one
    more when the cut falls inside a run. *)
Theorem count_uninterrupted_splits (w1 w2 : list bool) :
  count_uninterrupted (w1 ++ false :: w2)
    = count_uninterrupted w1 + count_uninterrupted w2
  /\ count_uninterrupted (w1 ++ w2)
     = count_uninterrupted w1 + count_uninterrupted w2
       - (if default false (last w1) && default false (head w2) then 1 else 0).
Proof.
  rewrite !count_uninterrupted_runs_from, !runs_from_app. split.
  - cbn [runs_from andb]. lia.
  - set (p := default false (last w1)).
    destruct w2 as [|b w2].
    + change (default false (head [])) with false.
      rewrite andb_false_r. cbn [runs_from]. lia.
    + change (default false (head (b :: w2))) with b. cbn [runs_from].
      destruct p, b; cbn [andb negb]; lia.
Qed.

Lemma rows_within_nonneg l : 0 <= rows_within l.
Proof.
  induction l as [|r l IH]; cbn [rows_within]; [done|].
  destruct (PrimFloat.leb (Distance_m r) 1.5); lia.
Qed.

Lemma true_rows_within_both la : forall lb,
  true_rows ((fun ab : TagReading * TagReading =>
                PrimFloat.leb (Distance_m (fst ab)) 1.5
                && PrimFloat.leb (Distance_m (snd ab)) 1.5) <$> zip la lb)
  <= Z.min (rows_within la) (rows_within lb).
Proof.
  induction la as [|a la IH]; intros [|b lb].
  - done.
  - pose proof (rows_within_nonneg (b :: lb)). cbn [zip zip_with fmap list_fmap true_rows rows_within] in *. lia.
  - pose proof (rows_within_nonneg (a :: la)). cbn [zip zip_with fmap list_fmap true_rows rows_within] in *. lia.
  - specialize (IH lb).
    cbn [zip zip_with fmap list_fmap true_rows rows_within fst snd].
    fold (zip la lb).
    destruct (PrimFloat.leb (Distance_m a) 1.5),
             (PrimFloat.leb (Distance_m b) 1.5); cbn [andb]; lia.
Qed.

(** X17: when tag A's readings have at least one row and timestamps that
    do not repeat, and tag B's readings have the same timestamps row by row,
    [verify_distances] prints one session count, and it is at most the
    smaller of the two counts of rows within 1.5, the count the contact
    duration is computed from. *)
Theorem sessions_at_most_contact_rows (isfinite_of_both : bool)
    (tag_a_df tag_b_df : DataFrame TagReading) :
  tag_a_df <> [] ->
  distinct_times (rows tag_a_df) = true ->
  Time_s <$> rows tag_a_df = Time_s <$> rows tag_b_df ->
  exists n,
    sessions_reported
      (trace (verify_distances isfinite_of_both tag_a_df tag_b_df)) = [n]
    /\ n <= Z.min (len (contact_within tag_a_df)) (len (contact_within tag_b_df)).
Proof.
  intros Hne Hd Ht. eexists.
  split; [by apply verify_distances_reports, isclose_dtypes_rows;
            [|apply (aligned_rows tag_a_df)]|].
  rewrite count_uninterrupted_runs_from, !len_contact_within.
  etransitivity; [apply runs_from_true_rows|].
  unfold within_1_5m. rewrite (merge_aligned _ _ Ht Hd).
  apply true_rows_within_both.
Qed.

Lemma sessions_at_most_contact_rows_witness :
  exists n,
    sessions_reported (trace (verify_distances false tag_a_nine tag_b_nine))
    = [n]
    /\ n <= Z.min (len (contact_within tag_a_nine)) (len (contact_within tag_b_nine)).
Proof.
  apply (sessions_at_most_contact_rows false tag_a_nine tag_b_nine).
  - discriminate.
  - vm_compute. reflexivity.
  - reflexivity.
Defined.

End Sessions.

Section Joins.

Lemma elem_of_inner_join {A B} (ka : A -> float) (kb : B -> float) l r a b :
  (a, b) ∈ inner_join ka kb l r
  <-> a ∈ l /\ b ∈ r /\ key_eqb (ka a) (kb b) = true.
Proof.
  unfold inner_join. rewrite list_elem_of_In, in_flat_map. split.
  - intros (a' & Ha' & Hin). apply list_elem_of_In, list_elem_of_fmap in Hin.
    destruct Hin as (b' & [= -> ->] & Hb').
    apply list_elem_of_In, filter_In in Hb' as [Hb' Hk].
    by rewrite !list_elem_of_In.
  - intros (Ha & Hb & Hk). exists a. split; [by apply list_elem_of_In|].
    apply list_elem_of_In, list_elem_of_fmap. exists b. split; [done|].
    apply list_elem_of_In, filter_In. by rewrite <- list_elem_of_In.
Qed.

Lemma elem_of_rows_select {R} (p : R -> bool) (df : DataFrame R) r :
  r ∈ rows (select p df) <-> r ∈ rows df /\ p r = true.
Proof. by rewrite rows_select, !list_elem_of_In, filter_In. Qed.

Lemma index_range_index {R} (l : list R) :
  index (range_index l) = Z.of_nat <$> seq 0 (length l).
Proof.
  unfold index, range_index. apply list_eq. intros k.
  rewrite fmap_imap, list_lookup_imap, list_lookup_fmap.
  destruct (l !! k) as [r|] eqn:E.
  - rewrite lookup_seq_lt by (by apply lookup_lt_Some in E). done.
  - rewrite lookup_seq_ge by (by apply lookup_ge_None in E). done.
Qed.

(** X9: the rows of the join of lines 126-127 pair a reading and a position
    exactly when the reading is one of the tag's readings with distance at
    most 1.5, the position is a row of the position dataset with the tag's
    identifier, and the two have the same timestamp; the result is indexed
    0, 1, 2, ... whatever the indices of its inputs. *)
Theorem contact_positions_rows (tag : pystr) (tag_df : DataFrame TagReading)
    (position_df : DataFrame PositionRecord) :
  (forall c p,
     (c, p) ∈ rows (contact_positions tag (contact_within tag_df) position_df)
     <-> c ∈ rows tag_df
         /\ PrimFloat.leb (Distance_m c) 1.5 = true
         /\ p ∈ rows position_df
         /\ TagID p = tag
         /\ key_eqb (Time_s c) (pos_Time_s p) = true)
  /\ index (contact_positions tag (contact_within tag_df) position_df)
     = range (len (contact_positions tag (contact_within tag_df) position_df)).
Proof.
  split.
  - intros c p. unfold contact_positions, contact_within.
    rewrite rows_merge, elem_of_inner_join, !elem_of_rows_select.
    rewrite bool_decide_eq_true. tauto.
  - unfold contact_positions, merge, range, len.
    rewrite index_range_index. unfold range_index.
    by rewrite length_imap, Nat2Z.id.
Qed.

End Joins.

Section Mismatches.

(** X20: when both tag tables have rows, [verify_distances] reports one
    mismatch table; a row is in it exactly when it shows the timestamp and
    the two distances of a reading of tag A and a reading of tag B that have
    the same timestamp and whose distances [np.isclose] tells apart; the
    message that all distances match is printed exactly when there is no
    such pair of readings. *)
Theorem verify_distances_reported_rows (isfinite_of_both : bool)
    (tag_a_df tag_b_df : DataFrame TagReading) :
  tag_a_df <> [] -> tag_b_df <> [] ->
  exists table,
    mismatches_reported
      (trace (verify_distances isfinite_of_both tag_a_df tag_b_df)) = [table]
    /\ (forall row,
          row ∈ table
          <-> exists ra rb,
                ra ∈ rows tag_a_df /\ rb ∈ rows tag_b_df
                /\ key_eqb (Time_s ra) (Time_s rb) = true
                /\ isclose (Distance_m ra) (Distance_m rb) = false
                /\ row = (Time_s ra, Distance_m ra, Distance_m rb))
    /\ (PrintAllMatch
          ∈ trace (verify_distances isfinite_of_both tag_a_df tag_b_df)
        <-> table = []).
Proof.
  intros Hrows_a Hrows_b.
  pose proof (isclose_dtypes_rows isfinite_of_both _ _ Hrows_a Hrows_b) as Hok.
  eexists. split; [by apply verify_distances_reports|]. split.
  - intros row. rewrite list_elem_of_fmap. split.
    + intros ([ra rb] & -> & Hin).
      apply list_elem_of_In, filter_In in Hin as [Hin Hd].
      apply list_elem_of_In in Hin.
      rewrite rows_merge in Hin. apply elem_of_inner_join in Hin as (? & ? & ?).
      exists ra, rb. repeat split; try done.
      unfold differing in Hd. cbn [fst snd] in Hd. by apply negb_true_iff.
    + intros (ra & rb & Ha & Hb & Hk & Hc & ->). exists (ra, rb).
      split; [done|]. apply list_elem_of_In, filter_In. split.
      * apply list_elem_of_In. rewrite rows_merge. by apply elem_of_inner_join.
      * unfold differing. cbn [fst snd]. by rewrite Hc.
  - unfold verify_distances, mismatched_distances. rewrite Hok.
    set (merged_tags := merge _ _ _ _).
    rewrite <- (rows_select differing merged_tags). fold differing.
    destruct (len (select differing merged_tags) =? 0) eqn:E;
      cbn [negb emit lift run_bind trace fst app].
    + apply len_nil_iff in E. rewrite E. split; [done|]. intros _. left.
    + split.
      * intros [H|[H|H]%elem_of_cons]%elem_of_cons; [done|done|].
        by apply elem_of_nil in H.
      * intros Hnil. apply fmap_nil_inv in Hnil. unfold rows in Hnil.
        apply fmap_nil_inv in Hnil. by rewrite Hnil in E.
Qed.

Lemma verify_distances_reported_rows_witness :
  exists table,
    mismatches_reported
      (trace (verify_distances false tag_two_contacts tag_two_contacts))
    = [table]
    /\ (forall row,
          row ∈ table
          <-> exists ra rb,
                ra ∈ rows tag_two_contacts /\ rb ∈ rows tag_two_contacts
                /\ key_eqb (Time_s ra) (Time_s rb) = true
                /\ isclose (Distance_m ra) (Distance_m rb) = false
                /\ row = (Time_s ra, Distance_m ra, Distance_m rb))
    /\ (PrintAllMatch
          ∈ trace (verify_distances false tag_two_contacts tag_two_contacts)
        <-> table = []).
Proof.
  apply (verify_distances_reported_rows false tag_two_contacts tag_two_contacts);
    discriminate.
Defined.

End Mismatches.

(* ===================================================================== *)
(** ** Further properties: the loader *)
(* ===================================================================== *)

Section LoaderMore.

Variable lower : pystr -> pystr.
Variable fs : pystr -> Res Table.

Lemma range_nonpos n : n <= 0 -> range n = [].
Proof. intros H. unfold range. by replace (Z.to_nat n) with O by lia. Qed.

Lemma read_csv_files_no_tags position numtags :
  numtags <= 0 ->
  read_csv_files lower fs position numtags = ([], inl KeyError).
Proof. intros H. unfold read_csv_files. by rewrite range_nonpos. Qed.

Lemma read_csv_files_one_tag position :
  lower (str "A") = str "a" ->
  read_csv_files lower fs position 1
  = ([ReadCsv (str "TagA.csv")],
     match fs (str "TagA.csv") with
     | inl e => inl e
     | inr _ => inl KeyError
     end).
Proof.
  intros HA. unfold read_csv_files.
  change (range 1) with [0]. cbn [for_each]. unfold name_tag.
  rewrite tag_names_letters, (letters_single 0) by lia.
  cbn [res_bind fst snd]. change (0 + 65) with 65.
  change [65] with (str "A"). rewrite HA, run_bind_lift.
  unfold getitem at 1. rewrite lookup_insert_eq, run_bind_lift.
  unfold read_csv.
  change (str "Tag" ++ str "A" ++ str ".csv") with (str "TagA.csv").
  destruct (fs (str "TagA.csv")) as [e|ta]; [done|].
  cbn [run_bind]. unfold getitem.
  rewrite lookup_insert_ne by done. by rewrite lookup_empty.
Qed.

(** X10: with a tag count of zero or less [read_csv_files] reads nothing and
    ends in [KeyError], the dictionary having no entry [tag_a]; with a tag
    count of one it reads [TagA.csv] and then, unless that read failed, ends
    in [KeyError] for [tag_b], without reading the position file. *)
Theorem read_csv_files_too_few_tags (position : pystr) :
  lower (str "A") = str "a" ->
  (forall numtags, numtags <= 0 ->
     read_csv_files lower fs position numtags = ([], inl KeyError))
  /\ read_csv_files lower fs position 1
     = ([ReadCsv (str "TagA.csv")],
        match fs (str "TagA.csv") with
        | inl e => inl e
        | inr _ => inl KeyError
        end).
Proof.
  intros HA. split.
  - intros numtags H. by apply read_csv_files_no_tags.
  - by apply read_csv_files_one_tag.
Qed.

Hypothesis lower_upper : forall c, 65 <= c <= 90 -> lower [c] = [c + 32].
Hypothesis lower_length : forall s, (length s <= length (lower s))%nat.

Lemma read_csv_files_cases position numtags :
  2 <= numtags <= max_numtags ->
  read_csv_files lower fs position numtags
  = match fs (str "TagA.csv") with
    | inl e => ([ReadCsv (str "TagA.csv")], inl e)
    | inr tag_a_df =>
        match fs (str "TagB.csv") with
        | inl e => ([ReadCsv (str "TagA.csv"); ReadCsv (str "TagB.csv")], inl e)
        | inr tag_b_df =>
            match fs position with
            | inl e =>
                ([ReadCsv (str "TagA.csv"); ReadCsv (str "TagB.csv");
                  ReadCsv position], inl e)
            | inr position_df =>
                ([ReadCsv (str "TagA.csv"); ReadCsv (str "TagB.csv");
                  ReadCsv position],
                 inr (tag_a_df, tag_b_df, position_df))
            end
        end
    end.
Proof.
  intros H. rewrite (read_csv_files_in_range lower fs lower_upper lower_length)
    by done.
  unfold read_three, read_csv.
  destruct (fs (str "TagA.csv")) as [e|ta]; [done|]. cbn [run_bind].
  destruct (fs (str "TagB.csv")) as [e|tb]; [done|]. cbn [run_bind].
  by destruct (fs position) as [e|tp].
Qed.

(** X11: for a tag count from 2 to [max_numtags], the first file that fails
    to read ends [read_csv_files] with that file's error, and the files
    after it are not read; when the three reads succeed their tables are
    returned as they were read. *)
Theorem read_csv_files_first_failure (position : pystr) (numtags : Z) :
  2 <= numtags <= max_numtags ->
  read_csv_files lower fs position numtags
  = match fs (str "TagA.csv") with
    | inl e => ([ReadCsv (str "TagA.csv")], inl e)
    | inr tag_a_df =>
        match fs (str "TagB.csv") with
        | inl e => ([ReadCsv (str "TagA.csv"); ReadCsv (str "TagB.csv")], inl e)
        | inr tag_b_df =>
            match fs position with
            | inl e =>
                ([ReadCsv (str "TagA.csv"); ReadCsv (str "TagB.csv");
                  ReadCsv position], inl e)
            | inr position_df =>
                ([ReadCsv (str "TagA.csv"); ReadCsv (str "TagB.csv");
                  ReadCsv position],
                 inr (tag_a_df, tag_b_df, position_df))
            end
        end
    end.
Proof. apply read_csv_files_cases. Qed.

(** X12: with more than [max_numtags] (28 965 248) tags the naming loop of
    [read_csv_files] raises [ValueError] at the index 28 965 248, before any
    file is read, whatever the files are. *)
Theorem read_csv_files_too_many_tags (position : pystr) (numtags : Z) :
  max_numtags < numtags ->
  read_csv_files lower fs position numtags = ([], inl ValueError)
  /\ tag_names lower max_numtags = inl ValueError
  /\ forall person, 0 <= person < max_numtags ->
       exists kv, tag_names lower person = inr kv.
Proof.
  intros H. split; [|split].
  - by apply (read_csv_files_overflow lower fs lower_upper lower_length).
  - by rewrite tag_names_letters, letters_overflow.
  - intros person Hp. rewrite tag_names_letters.
    destruct (decide (person <= 25)).
    + rewrite letters_single by lia. by eexists.
    + rewrite letters_pair by lia. by eexists.
Qed.

(** X18: whatever the tag count, [read_csv_files] reads no file other than
    [TagA.csv], [TagB.csv] and the position file, reads them in that order,
    and reads none of them twice. *)
Theorem read_csv_files_reads_at_most_three (position : pystr) (numtags : Z) :
  trace (read_csv_files lower fs position numtags)
    `prefix_of` [ReadCsv (str "TagA.csv"); ReadCsv (str "TagB.csv");
                 ReadCsv position].
Proof.
  destruct (decide (numtags <= 0)) as [H0|H0].
  { rewrite read_csv_files_no_tags by done. by eexists. }
  destruct (decide (numtags = 1)) as [->|H1].
  { rewrite read_csv_files_one_tag by (by apply (lower_upper 65)). by eexists. }
  destruct (decide (numtags <= max_numtags)) as [Hm|Hm].
  - rewrite read_csv_files_cases by lia.
    destruct (fs (str "TagA.csv")) as [e|ta]; [by eexists|].
    destruct (fs (str "TagB.csv")) as [e|tb]; [by eexists|].
    destruct (fs position) as [e|tp]; done.
  - rewrite (read_csv_files_overflow lower fs lower_upper lower_length) by lia.
    by eexists.
Qed.

End LoaderMore.

Section Names.

Variable lower : pystr -> pystr.

Lemma letters_injective p q l :
  0 <= p < max_numtags -> 0 <= q < max_numtags ->
  letters p = inr l -> letters q = inr l -> p = q.
Proof.
  intros Hp Hq.
  destruct (decide (p <= 25)), (decide (q <= 25)).
  - rewrite !letters_single by lia. intros [= <-] [= E]. lia.
  - rewrite letters_single, letters_pair by lia. by intros [= <-].
  - rewrite letters_pair, letters_single by lia. by intros [= <-].
  - rewrite !letters_pair by lia. intros [= <-] [= E1 E2].
    rewrite (Z.div_mod p 26), (Z.div_mod q 26) by lia. lia.
Qed.

(** X13: below [max_numtags] every tag index gets a file name, and no two
    indices get the same one. *)
Theorem tag_filenames_distinct (p q : Z) :
  0 <= p < max_numtags ->
  0 <= q < max_numtags ->
  exists key_p key_q file_p file_q,
    tag_names lower p = inr (key_p, file_p)
    /\ tag_names lower q = inr (key_q, file_q)
    /\ (file_p = file_q -> p = q).
Proof.
  intros Hp Hq. rewrite !tag_names_letters.
  destruct (letters p) as [e|lp] eqn:Ep.
  { destruct (decide (p <= 25));
      [rewrite letters_single in Ep by lia|rewrite letters_pair in Ep by lia];
      done. }
  destruct (letters q) as [e|lq] eqn:Eq.
  { destruct (decide (q <= 25));
      [rewrite letters_single in Eq by lia|rewrite letters_pair in Eq by lia];
      done. }
  cbn [res_bind]. do 4 eexists. split; [done|]. split; [done|].
  intros E. apply app_inv_head, app_inv_tail in E. subst lq.
  by apply (letters_injective p q lp).
Qed.

Lemma tag_names_in_range q :
  0 <= q < max_numtags ->
  exists l, letters q = inr l
            /\ tag_names lower q
               = inr (str "tag_" ++ lower l, str "Tag" ++ l ++ str ".csv").
Proof.
  intros Hq. rewrite tag_names_letters.
  destruct (decide (q <= 25)).
  - rewrite letters_single by lia. by eexists.
  - rewrite letters_pair by lia. by eexists.
Qed.

(** The loop of line 14 over indices that all get a name returns. *)
Lemma for_each_name_tag_returns l : forall d0,
  (forall q, q ∈ l -> 0 <= q < max_numtags) ->
  exists d, for_each (name_tag lower) l d0 = inr d.
Proof.
  induction l as [|q l IH]; intros d0 Hl; [by eexists|].
  cbn [for_each]. unfold name_tag at 1.
  destruct (tag_names_in_range q (Hl q ltac:(left))) as (lq & _ & ->).
  cbn [res_bind]. apply IH. intros q' Hq'. apply Hl. by right.
Qed.

(** A key is left alone by the indices that get another key. *)
Lemma for_each_name_tag_other key l : forall d0 d,
  for_each (name_tag lower) l d0 = inr d ->
  (forall q file, q ∈ l -> tag_names lower q <> inr (key, file)) ->
  d !! key = d0 !! key.
Proof.
  induction l as [|q l IH]; intros d0 d Hd Hl.
  - cbn in Hd. by injection Hd as <-.
  - cbn [for_each] in Hd. unfold name_tag at 1 in Hd.
    destruct (tag_names lower q) as [e|[k f]] eqn:E; [done|].
    cbn [res_bind fst snd] in Hd.
    rewrite (IH _ _ Hd) by (intros q' file Hq'; apply Hl; by right).
    apply lookup_insert_ne. intros ->. by apply (Hl q f ltac:(left)).
Qed.

(** After the loop a key given to some index holds the file name of one of
    the indices that were given it. *)
Lemma for_each_name_tag_holds key l : forall d0 d,
  for_each (name_tag lower) l d0 = inr d ->
  (exists q file, q ∈ l /\ tag_names lower q = inr (key, file)) ->
  exists q file,
    q ∈ l /\ tag_names lower q = inr (key, file) /\ d !! key = Some file.
Proof.
  induction l as [|q0 l IH] using rev_ind; intros d0 d Hd (q & file & Hq & Hkey).
  { by apply elem_of_nil in Hq. }
  rewrite for_each_app in Hd.
  destruct (for_each (name_tag lower) l d0) as [e|d1] eqn:Hd1; [done|].
  cbn [res_bind for_each] in Hd. unfold name_tag in Hd.
  destruct (tag_names lower q0) as [e|[k f]] eqn:E; [done|].
  cbn [res_bind fst snd] in Hd. injection Hd as <-.
  destruct (decide (k = key)) as [->|Hne].
  - exists q0, f. split; [apply elem_of_app; right; left|].
    split; [done|]. apply lookup_insert_eq.
  - apply elem_of_app in Hq as [Hq|Hq].
    + destruct (IH d0 d1 Hd1) as (q' & file' & Hq' & Hkey' & Hd');
        [by exists q, file|].
      exists q', file'. split; [apply elem_of_app; by left|]. split; [done|].
      by rewrite lookup_insert_ne.
    + apply list_elem_of_singleton in Hq. subst q0. congruence.
Qed.

Lemma range_NoDup n : NoDup (range n).
Proof.
  unfold range. apply NoDup_fmap; [intros x y; apply Nat2Z.inj|apply NoDup_seq].
Qed.

Lemma range_split_above k n :
  0 <= k < n ->
  exists rest, range n = range k ++ k :: rest /\ forall q, q ∈ rest -> k < q < n.
Proof.
  intros H. destruct (range_split k n H) as [rest Hrest]. exists rest.
  split; [done|]. intros q Hq.
  assert (q ∈ range n) as Hin
    by (rewrite Hrest; apply elem_of_app; right; by right).
  apply elem_of_range in Hin.
  pose proof (range_NoDup n) as Hnd. rewrite Hrest in Hnd.
  apply NoDup_app in Hnd as (_ & Hdisj & Hnd).
  apply NoDup_cons in Hnd as [Hk _].
  assert (q <> k) by (by intros ->).
  assert (~ 0 <= q < k).
  { intros Hlow. apply (Hdisj q); [by apply elem_of_range|by right]. }
  lia.
Qed.

Hypothesis lower_ascii :
  forall s, Forall (fun c => 0 <= c < 128) s -> lower s = ascii_lower s.

(** X14: the dictionary keys are lower-cased, so they are not one per tag:
    for every index [p] from 26 to 701 (AA to ZZ) the index [p + 832] gets
    the same key as [p] with a different file name, and when the tag count
    is above [p + 832] (and at most [max_numtags]) the loop of line 14
    returns a dictionary in which that key holds the file name of an index
    that is at least [p + 832] and was given the same key, not the file
    name of [p]. *)
Theorem tag_keys_collide (p numtags : Z) :
  26 <= p <= 701 ->
  p + 832 < numtags <= max_numtags ->
  exists key file_p file_q,
    tag_names lower p = inr (key, file_p)
    /\ tag_names lower (p + 832) = inr (key, file_q)
    /\ file_p <> file_q
    /\ exists (data_frames : gmap pystr pystr) (q : Z) (file : pystr),
         for_each (name_tag lower) (range numtags) ∅ = inr data_frames
         /\ p + 832 <= q < numtags
         /\ tag_names lower q = inr (key, file)
         /\ data_frames !! key = Some file
         /\ file <> file_p.
Proof.
  intros Hp Hn.
  assert (exists key file_p file_q,
            tag_names lower p = inr (key, file_p)
            /\ tag_names lower (p + 832) = inr (key, file_q)
            /\ file_p <> file_q) as (key & file_p & file_q & Ep & Eq & Hfiles).
  { rewrite !tag_names_letters.
    pose proof (Z.mod_pos_bound p 26 ltac:(lia)) as Hmod.
    assert (1 <= p / 26 <= 26) as Hdiv.
    { split; [apply Z.div_le_lower_bound; lia|].
      apply Z.lt_succ_r, Z.div_lt_upper_bound; lia. }
    rewrite !letters_pair by (unfold max_numtags; lia).
    replace (p + 832) with (p + 32 * 26) by lia.
    rewrite Z.div_add, Z.mod_add by lia. cbn [res_bind].
    assert (lower [p / 26 + 64; p mod 26 + 65]
            = [p / 26 + 96; p mod 26 + 97]) as E1.
    { rewrite lower_ascii by (repeat constructor; lia).
      unfold ascii_lower. cbn [fmap list_fmap].
      destruct (65 <=? p / 26 + 64) eqn:?; [|lia].
      destruct (p / 26 + 64 <=? 90) eqn:?; [|lia].
      destruct (65 <=? p mod 26 + 65) eqn:?; [|lia].
      destruct (p mod 26 + 65 <=? 90) eqn:?; [|lia].
      cbn [andb]. f_equal; [lia|f_equal; lia]. }
    assert (lower [p / 26 + 32 + 64; p mod 26 + 65]
            = [p / 26 + 96; p mod 26 + 97]) as E2.
    { rewrite lower_ascii by (repeat constructor; lia).
      unfold ascii_lower. cbn [fmap list_fmap].
      destruct (p / 26 + 32 + 64 <=? 90) eqn:?; [lia|].
      destruct (65 <=? p mod 26 + 65) eqn:?; [|lia].
      destruct (p mod 26 + 65 <=? 90) eqn:?; [|lia].
      rewrite andb_false_r. cbn [andb]. f_equal; [lia|f_equal; lia]. }
    rewrite E1, E2. do 3 eexists. split; [done|]. split; [done|].
    intros [= E]. lia. }
  exists key, file_p, file_q. split; [done|]. split; [done|]. split; [done|].
  destruct (for_each_name_tag_returns (range numtags) ∅) as [d Hd].
  { intros q Hq%elem_of_range. lia. }
  destruct (range_split_above (p + 832) numtags ltac:(lia)) as (rest & Hsplit & Hrest).
  pose proof Hd as Hloop. rewrite Hsplit, for_each_app in Hloop.
  destruct (for_each (name_tag lower) (range (p + 832)) ∅) as [e|d1]; [done|].
  cbn [res_bind] in Hloop.
  destruct (for_each_name_tag_holds key _ _ _ Hloop) as (q & file & Hq & Hkey & Hfile).
  { exists (p + 832), file_q. split; [left|done]. }
  assert (p + 832 <= q < numtags) as Hrange.
  { apply elem_of_cons in Hq as [->|Hq]; [lia|]. apply Hrest in Hq. lia. }
  exists d, q, file. split; [done|]. split; [done|]. split; [done|].
  split; [done|]. intros ->.
  destruct (tag_names_in_range p ltac:(unfold max_numtags in *; lia))
    as (lp & Hlp & Hnp).
  destruct (tag_names_in_range q ltac:(lia)) as (lq & Hlq & Hnq).
  rewrite Hnp in Ep. rewrite Hnq in Hkey.
  assert (str "Tag" ++ lq ++ str ".csv" = str "Tag" ++ lp ++ str ".csv")
    as Hsame by congruence.
  apply app_inv_head, app_inv_tail in Hsame. subst lq.
  assert (q = p); [|lia].
  apply (letters_injective q p lp); [lia|unfold max_numtags in *; lia|done|done].
Qed.

End Names.

Lemma tag_filenames_distinct_witness :
  exists key_p key_q file_p file_q,
    tag_names ascii_lower 3 = inr (key_p, file_p)
    /\ tag_names ascii_lower 29 = inr (key_q, file_q)
    /\ (file_p = file_q -> 3 = 29).
Proof.
  apply (tag_filenames_distinct ascii_lower 3 29); unfold max_numtags; lia.
Defined.

Lemma tag_keys_collide_witness :
  exists key file_p file_q,
    tag_names ascii_lower 27 = inr (key, file_p)
    /\ tag_names ascii_lower (27 + 832) = inr (key, file_q)
    /\ file_p <> file_q
    /\ exists (data_frames : gmap pystr pystr) (q : Z) (file : pystr),
         for_each (name_tag ascii_lower) (range 1000) ∅ = inr data_frames
         /\ 27 + 832 <= q < 1000
         /\ tag_names ascii_lower q = inr (key, file)
         /\ data_frames !! key = Some file
         /\ file <> file_p.
Proof.
  apply (tag_keys_collide ascii_lower (fun s _ => eq_refl) 27 1000);
    [lia|unfold max_numtags; lia].
Defined.

(* ===================================================================== *)
(** ** Further properties: the whole analysis and the plot *)
(* ===================================================================== *)

Lemma read_csv_files_too_few_tags_witness :
  (forall numtags, numtags <= 0 ->
     read_csv_files ascii_lower (directory tag_a_nine tag_b_nine positions_four)
                    (str "position.csv") numtags
     = ([], inl KeyError))
  /\ read_csv_files ascii_lower (directory tag_a_nine tag_b_nine positions_four)
                    (str "position.csv") 1
     = ([ReadCsv (str "TagA.csv")], inl KeyError).
Proof.
  apply (read_csv_files_too_few_tags ascii_lower
           (directory tag_a_nine tag_b_nine positions_four)
           (str "position.csv")).
  reflexivity.
Defined.

Lemma read_csv_files_first_failure_witness :
  read_csv_files ascii_lower (directory tag_a_nine tag_b_nine positions_four)
                 (str "missing.csv") 3
  = ([ReadCsv (str "TagA.csv"); ReadCsv (str "TagB.csv");
      ReadCsv (str "missing.csv")], inl OSError).
Proof.
  rewrite (read_csv_files_first_failure ascii_lower
             (directory tag_a_nine tag_b_nine positions_four)
             ascii_lower_upper ascii_lower_length (str "missing.csv") 3)
    by (unfold max_numtags; lia).
  reflexivity.
Defined.

Lemma read_csv_files_too_many_tags_witness :
  read_csv_files ascii_lower (directory tag_a_nine tag_b_nine positions_four)
                 (str "position.csv") (max_numtags + 1)
  = ([], inl ValueError)
  /\ tag_names ascii_lower max_numtags = inl ValueError
  /\ forall person, 0 <= person < max_numtags ->
       exists kv, tag_names ascii_lower person = inr kv.
Proof.
  apply (read_csv_files_too_many_tags ascii_lower
           (directory tag_a_nine tag_b_nine positions_four)
           ascii_lower_upper ascii_lower_length (str "position.csv")
           (max_numtags + 1)).
  lia.
Defined.

Lemma read_csv_files_reads_at_most_three_witness :
  trace (read_csv_files ascii_lower
           (directory tag_a_nine tag_b_nine positions_four)
           (str "position.csv") 7)
    `prefix_of` [ReadCsv (str "TagA.csv"); ReadCsv (str "TagB.csv");
                 ReadCsv (str "position.csv")].
Proof.
  apply (read_csv_files_reads_at_most_three ascii_lower
           (directory tag_a_nine tag_b_nine positions_four)
           ascii_lower_upper ascii_lower_length).
Defined.

Section AnalysisMore.

Variable lower : pystr -> pystr.
Variable fs : pystr -> Res Table.
Variable isfinite_of_both : bool.

(** X15: when the position file has a header and no rows, [tag_analysis]
    prints the contact identifiers of the two tags and then ends in
    [ZeroDivisionError]: no distance is verified, no duration is printed and
    nothing is plotted. *)
Theorem tag_analysis_empty_positions
    (tag_a tag_b position : pystr) (numtags : Z) (tr : list Event)
    (a b : DataFrame TagReading) :
  read_csv_files lower fs position numtags
    = (tr, inr (TagTable a, TagTable b, PositionTable [])) ->
  tag_analysis lower fs isfinite_of_both tag_a tag_b position numtags
  = (tr ++ [PrintContactIDs (unique (ContactID <$> rows a))
                            (unique (ContactID <$> rows b))],
     inl ZeroDivisionError).
Proof.
  intros Hread.
  rewrite (tag_analysis_read lower fs _ _ _ _ _ _ _ _ _ Hread).
  by rewrite analyse_tables.
Qed.

(** X16: once the three tables are read, both tag tables with at least one
    row, and the label correction has returned, [tag_analysis] runs to its
    end without an exception, whatever [tag_a] and [tag_b] are, and its
    output is, in this order: the contact
    identifiers, the measurement error if one was flagged, either the table
    of mismatched rows, which is then not empty, or the message that all
    distances match, the session count, the duration, and the plot of the
    corrected positions. *)
Theorem tag_analysis_output_order
    (tag_a tag_b position : pystr) (numtags : Z) (tr : list Event)
    (a b : DataFrame TagReading) (p p' : DataFrame PositionRecord) :
  read_csv_files lower fs position numtags
    = (tr, inr (TagTable a, TagTable b, PositionTable p)) ->
  a <> [] -> b <> [] ->
  outcome (correct_tag_ids p) = inr p' ->
  exists flag report n,
    tag_analysis lower fs isfinite_of_both tag_a tag_b position numtags
    = (tr ++ [PrintContactIDs (unique (ContactID <$> rows a))
                              (unique (ContactID <$> rows b))]
          ++ flag
          ++ [report; PrintSessions n;
              PrintDuration (total_contact_duration (contact_within a)
                                                    (contact_within b));
              plot_of p' (contact_positions (str "A") (contact_within a) p')],
       inr tt)
    /\ (flag = [] \/ flag = [PrintMeasurementError])
    /\ (report = PrintAllMatch
        \/ exists table, table <> [] /\ report = PrintMismatched table).
Proof.
  intros Hread Ha Hb Hfix.
  rewrite (tag_analysis_read lower fs _ _ _ _ _ _ _ _ _ Hread), analyse_tables.
  pose proof (correct_tag_ids_trace p) as Ht.
  destruct (correct_tag_ids p) as [t [e|p'']]; [done|].
  cbn [outcome snd trace fst] in *. injection Hfix as ->.
  unfold verify_distances. rewrite (isclose_dtypes_rows _ _ _ Ha Hb).
  set (mismatched := mismatched_distances _).
  destruct (len mismatched =? 0) eqn:E;
    cbn [negb emit lift run_bind trace outcome fst snd app].
  - exists t, PrintAllMatch. eexists. split; [done|]. split; [done|by left].
  - exists t. eexists. eexists. split; [done|]. split; [done|]. right.
    eexists. split; [|done].
    intros Hnil. apply fmap_nil_inv in Hnil.
    unfold rows in Hnil. apply fmap_nil_inv in Hnil.
    rewrite Hnil in E. done.
Qed.

End AnalysisMore.

Lemma tag_analysis_empty_positions_witness :
  tag_analysis ascii_lower (directory tag_a_early tag_b_late []) false
    (str "TagA.csv") (str "TagB.csv") (str "position.csv") 2
  = ([ReadCsv (str "TagA.csv"); ReadCsv (str "TagB.csv");
      ReadCsv (str "position.csv"); PrintContactIDs [str "B"] [str "A"]],
     inl ZeroDivisionError).
Proof.
  rewrite (tag_analysis_empty_positions ascii_lower
             (directory tag_a_early tag_b_late []) false
             (str "TagA.csv") (str "TagB.csv") (str "position.csv") 2
             _ tag_a_early tag_b_late (read_sample_directory _ _ _)).
  reflexivity.
Defined.

Lemma tag_analysis_output_order_witness :
  exists flag report n,
    tag_analysis ascii_lower (directory tag_a_nine tag_b_nine doubled_positions)
      false (str "other_a.csv") (str "other_b.csv") (str "position.csv") 2
    = ([ReadCsv (str "TagA.csv"); ReadCsv (str "TagB.csv");
        ReadCsv (str "position.csv")]
          ++ [PrintContactIDs (unique (ContactID <$> rows tag_a_nine))
                              (unique (ContactID <$> rows tag_b_nine))]
          ++ flag
          ++ [report; PrintSessions n;
              PrintDuration (total_contact_duration (contact_within tag_a_nine)
                                                    (contact_within tag_b_nine));
              plot_of (relabel_odd (str "B") doubled_positions)
                (contact_positions (str "A") (contact_within tag_a_nine)
                   (relabel_odd (str "B") doubled_positions))],
       inr tt)
    /\ (flag = [] \/ flag = [PrintMeasurementError])
    /\ (report = PrintAllMatch
        \/ exists table, table <> [] /\ report = PrintMismatched table).
Proof.
  apply (tag_analysis_output_order ascii_lower
           (directory tag_a_nine tag_b_nine doubled_positions) false
           (str "other_a.csv") (str "other_b.csv") (str "position.csv") 2
           _ tag_a_nine tag_b_nine doubled_positions
           (relabel_odd (str "B") doubled_positions)
           (read_sample_directory _ _ _)); [discriminate|discriminate|].
  reflexivity.
Defined.

Section Plot.

Lemma tracks_length (df : DataFrame PositionRecord) :
  (length (select (fun r => bool_decide (TagID r = str "A")) df)
   + length (select (fun r => bool_decide (TagID r = str "B")) df)
   <= length df)%nat
  /\ ((length (select (fun r => bool_decide (TagID r = str "A")) df)
       + length (select (fun r => bool_decide (TagID r = str "B")) df)
       = length df)%nat
      <-> forall r, r ∈ rows df -> TagID r = str "A" \/ TagID r = str "B").
Proof.
  unfold select, rows. induction df as [|[i r] df [IHle IHeq]].
  - split; [done|]. split; [|done]. intros _ r Hr. by apply elem_of_nil in Hr.
  - cbn [List.filter snd fmap list_fmap length].
    assert ((forall r', r' ∈ r :: (snd <$> df) ->
               TagID r' = str "A" \/ TagID r' = str "B")
            <-> (TagID r = str "A" \/ TagID r = str "B")
                /\ forall r', r' ∈ snd <$> df ->
                     TagID r' = str "A" \/ TagID r' = str "B") as Hcons.
    { split.
      - intros H. split; [apply H; left|]. intros r' Hr'. apply H. by right.
      - intros [H0 H] r' [->|Hr']%elem_of_cons; [done|by apply H]. }
    rewrite Hcons, <- IHeq. clear Hcons IHeq.
    destruct (decide (TagID r = str "A")) as [EA|EA].
    + rewrite (bool_decide_eq_true_2 _ EA).
      rewrite bool_decide_eq_false_2 by (rewrite EA; done).
      cbn [length]. split; [lia|]. split; [intros H; split; [by left|lia]|].
      intros [_ H]. lia.
    + rewrite (bool_decide_eq_false_2 _ EA).
      destruct (decide (TagID r = str "B")) as [EB|EB].
      * rewrite (bool_decide_eq_true_2 _ EB). cbn [length]. split; [lia|].
        split; [intros H; split; [by right|lia]|]. intros [_ H]. lia.
      * rewrite (bool_decide_eq_false_2 _ EB). split; [lia|]. split; [lia|].
        intros [[H|H] _]; done.
Qed.

(** X21: [plot_positions] never raises and draws one plot; a position row
    is drawn on track A or on track B, never on both, and the rows whose
    identifier is neither A nor B are drawn on neither: the two tracks have
    together as many points as the dataset has rows exactly when every row
    is labelled A or B. One contact point is drawn per joined row. *)
Theorem plot_positions_tracks {C} (position_df : DataFrame PositionRecord)
    (contact_within_1_5m : DataFrame (C * PositionRecord)) :
  exists track_a track_b contact_points,
    plot_positions position_df contact_within_1_5m
      = ([ShowPlot track_a track_b contact_points], inr tt)
    /\ (length track_a + length track_b <= length position_df)%nat
    /\ ((length track_a + length track_b = length position_df)%nat
        <-> forall r, r ∈ rows position_df ->
              TagID r = str "A" \/ TagID r = str "B")
    /\ length contact_points = length contact_within_1_5m.
Proof.
  do 3 eexists. split; [reflexivity|].
  unfold rows. rewrite !length_fmap.
  split; [apply tracks_length|]. split; [apply tracks_length|done].
Qed.

End Plot.
